(** * Meeting Assistant Reranker: [backend/reranker/server.py]

    A shallow embedding of the [/rerank] handler and the properties of
    its score-then-sort pipeline.

    The handler is
<<
    def rerank(payload: RerankRequest):
        pairs = [(payload.query, doc.text) for doc in payload.documents]
        scores = model.predict(pairs)
        results = [
            {"id": doc.id, "score": float(score)}
            for doc, score in zip(payload.documents, scores)
        ]
        results.sort(key=lambda item: item["score"], reverse=True)
        return {"results": results}
>>
    [model] is the process-wide [CrossEncoder]; it is external to the
    handler, so it is a variable of the development: a transition on an
    arbitrary model state that either returns a sequence of numbers (of
    any length) or raises.  Every call of it is recorded in a log, so
    that statements about how often and with what it is invoked can be
    made. *)

From Stdlib Require Import List String ZArith Bool Arith Lia Permutation Sorted.
From Stdlib Require Import Floats.SpecFloat.
Import ListNotations.

#[local] Open Scope string_scope.
#[local] Open Scope list_scope.

(** ** Python values *)

(** A Python [float] is an IEEE 754 binary64 number.  [spec_float] is
    the Standard Library's specification of those: signed zeros, signed
    infinities, NaN, and finite numbers. The handler never does
    arithmetic on scores, it only compares them. *)
Definition pyfloat : Type := spec_float.

(** What [model.predict] yields per pair: a numpy [float32] scalar. Every
    binary32 number is a binary64 number. *)
Definition npfloat : Type := spec_float.

(** [float(score)]: widening a numpy scalar to a Python float is exact,
    NaN stays NaN. *)
Definition float (score : npfloat) : pyfloat := score.

(** Python's [<], [>=] and [==] on floats. Each of them is [False] as
    soon as one operand is NaN. *)
Definition float_lt (x y : pyfloat) : bool := SFltb x y.
Definition float_ge (x y : pyfloat) : bool := SFleb y x.
Definition float_eq (x y : pyfloat) : bool := SFeqb x y.

Definition isnan (x : pyfloat) : bool :=
  match x with
  | S754_nan => true
  | _ => false
  end.

(** [Any]: the values a JSON request body can put into [metadata]. *)
#[local] Unset Elimination Schemes.
Inductive Any : Type :=
| PyNone
| PyBool (b : bool)
| PyInt (n : Z)
| PyFloat (x : pyfloat)
| PyStr (s : string)
| PyList (l : list Any)
| PyDict (d : list (string * Any)).
#[local] Set Elimination Schemes.

(** A raised exception: its class and its message. *)
Record exn : Type := Exception { exn_class : string; exn_message : string }.

(** ** The pydantic models *)

Module Document.
Record t : Type := Build {
    id : string;
    text : string;
    metadata : option (list (string * Any));
    score : option pyfloat
  }.
End Document.

Module RerankRequest.
Record t : Type := Build {
    query : string;
    documents : list Document.t
  }.
End RerankRequest.

Module RerankResult.
Record t : Type := Build {
    id : string;
    score : pyfloat
  }.
End RerankResult.

Module RerankResponse.
Record t : Type := Build {
    results : list RerankResult.t
  }.
End RerankResponse.

(** ** [list.sort(key=..., reverse=...)]

    [list.sort] is stable and compares keys with [<] only.  With
    [reverse=True] CPython reverses the list, runs the forward sort and
    reverses the outcome, which is how it keeps equal keys in their
    original order.

    The forward sort follows CPython 3.11's [listobject.c]: [count_run]
    finds the run the list starts with (the longest stretch in which no
    item is below its predecessor, or in which every item is below its
    predecessor; the latter is reversed), and [binarysort] inserts the
    remaining items one by one, each at the place a binary search finds
    in the part sorted so far.  For a list of fewer than 64 items that is
    all of [list.sort]: the minimal run length is then the length of the
    list.  A longer list CPython cuts into several such runs and merges
    them; the merged list is the one computed here whenever [<] orders
    the keys (no NaN among them), since a stable sort then has one
    possible outcome. With NaN among the keys of 64 items or more the
    two may differ. *)
Section ListSort.
Context {A K : Type}.
Variable lt : K -> K -> bool.
Variable key : A -> K.

(** The loops of [count_run]: how many of the items of [l], which
    follow [prev], continue the run. *)
Fixpoint run_ascending (prev : A) (l : list A) : nat :=
  match l with
  | [] => 0
  | x :: l' => if lt (key x) (key prev) then 0 else S (run_ascending x l')
  end.

Fixpoint run_descending (prev : A) (l : list A) : nat :=
  match l with
  | [] => 0
  | x :: l' => if lt (key x) (key prev) then S (run_descending x l') else 0
  end.

(** The length of the run at the head of [l], and whether it descends. *)
Definition count_run (l : list A) : nat * bool :=
  match l with
  | [] => (0, false)
  | x :: t =>
      match t with
      | [] => (1, false)
      | y :: l' =>
          if lt (key y) (key x)
          then (2 + run_descending y l', true)
          else (2 + run_ascending y l', false)
      end
  end.

(** The binary search of [binarysort]:
<<
    do {
        p = l + ((r - l) >> 1);
        IFLT(pivot, *p) r = p;
        else l = p+1;
    } while (l < r);
>>
    The interval shrinks with every round, so [r - l] rounds are enough. *)
Fixpoint bisect (fuel : nat) (sorted : list A) (pivot : A) (l r : nat) : nat :=
  match fuel with
  | 0 => l
  | S fuel' =>
      let p := l + Nat.div2 (r - l) in
      match nth_error sorted p with
      | None => l
      | Some x =>
          let l' := if lt (key pivot) (key x) then l else S p in
          let r' := if lt (key pivot) (key x) then p else r in
          if Nat.ltb l' r' then bisect fuel' sorted pivot l' r' else l'
      end
  end.

(** [binarysort]: every item of [rest] in turn is put into [sorted] at
    the index the search returns. *)
Fixpoint binarysort (sorted rest : list A) : list A :=
  match rest with
  | [] => sorted
  | pivot :: rest' =>
      let l := bisect (List.length sorted) sorted pivot 0 (List.length sorted) in
      binarysort (firstn l sorted ++ pivot :: skipn l sorted) rest'
  end.

(** A list of fewer than two items is left alone. *)
Definition sort_forward (l : list A) : list A :=
  match l with
  | [] => []
  | x :: t =>
      match t with
      | [] => [x]
      | _ :: _ =>
          let (n, descending) := count_run l in
          let run := firstn n l in
          binarysort (if descending then rev run else run) (skipn n l)
      end
  end.

Definition list_sort (reverse : bool) (l : list A) : list A :=
  if reverse then rev (sort_forward (rev l)) else sort_forward l.
End ListSort.

(** [x] is not above [y], and [x] is below [y], by their keys. *)
Definition key_le {A K : Type} (lt : K -> K -> bool) (key : A -> K)
  (x y : A) : Prop := lt (key y) (key x) = false.
Definition key_lt {A K : Type} (lt : K -> K -> bool) (key : A -> K)
  (x y : A) : Prop := lt (key x) (key y) = true.

(** ** Running the handler: results, exceptions and the model *)

Inductive outcome (A : Type) : Type :=
| Returned (a : A)
| Raised (e : exn).
Arguments Returned {A} a.
Arguments Raised {A} e.

Section Handler.
  (** The loaded [CrossEncoder]: whatever state it has, and what
      [predict] does to it on a batch of (query, text) pairs. *)
Variable Model : Type.
Variable predict :
    Model -> list (string * string) -> outcome (list npfloat) * Model.

  (** What the handler can touch: the model, and the record of the
      batches [predict] was called with, oldest first. *)
Record World : Type := mkWorld {
    model : Model;
    predict_calls : list (list (string * string))
  }.

Definition Py (A : Type) : Type := World -> outcome A * World.

Definition ret {A} (a : A) : Py A := fun w => (Returned a, w).

  (** A raised exception skips the rest of the function body. *)
Definition bind {A B} (c : Py A) (k : A -> Py B) : Py B :=
    fun w =>
      match c w with
      | (Returned a, w') => k a w'
      | (Raised e, w') => (Raised e, w')
      end.

  (** [model.predict(pairs)] *)
Definition model_predict (pairs : list (string * string)) : Py (list npfloat) :=
    fun w =>
      let (r, m') := predict (model w) pairs in
      (r, {| model := m'; predict_calls := predict_calls w ++ [pairs] |}).

  (** [{"id": doc.id, "score": float(score)}] *)
Definition result_of (ds : Document.t * npfloat) : RerankResult.t :=
    let (doc, score) := ds in
    RerankResult.Build (Document.id doc) (float score).

Definition rerank (payload : RerankRequest.t) : Py RerankResponse.t :=
    let pairs :=
      map (fun doc => (RerankRequest.query payload, Document.text doc))
          (RerankRequest.documents payload) in
    bind (model_predict pairs) (fun scores =>
    let results :=
      map result_of (combine (RerankRequest.documents payload) scores) in
    let results := list_sort float_lt RerankResult.score true results in
    ret (RerankResponse.Build results)).
End Handler.

Arguments mkWorld {Model} model predict_calls.
Arguments model {Model} w.
Arguments predict_calls {Model} w.
Arguments ret {Model A} a _.
Arguments bind {Model A B} c k _.
Arguments model_predict {Model} predict pairs _.
Arguments rerank {Model} predict payload _.

(** ** Sample data

    Some binary64 numbers, the two documents of the specification's
    example scenario, and stand-ins for the model. *)

Definition f_1_0 : pyfloat := S754_finite false 4503599627370496 (-52)%Z.
Definition f_2_0 : pyfloat := S754_finite false 4503599627370496 (-51)%Z.
Definition f_nan : pyfloat := S754_nan.

Definition doc_a : Document.t :=
  Document.Build "a" "weather forecast for tomorrow" None None.
Definition doc_b : Document.t :=
  Document.Build "b" "Q3 budget review meeting notes" None None.
Definition doc_c : Document.t :=
  Document.Build "c" "lunch menu" None None.

(** The same two documents as an upstream retrieval stage would send
    them, with metadata and a retrieval score. *)
Definition doc_a_upstream : Document.t :=
  Document.Build "a" "weather forecast for tomorrow"
    (Some [("source", PyStr "wiki"); ("page", PyInt 3%Z)]) (Some f_2_0).
Definition doc_b_upstream : Document.t :=
  Document.Build "b" "Q3 budget review meeting notes"
    (Some [("tags", PyList [PyStr "finance"; PyNone])]) (Some f_nan).

Definition budget_request : RerankRequest.t :=
  RerankRequest.Build "budget meeting" [doc_a; doc_b].
Definition budget_request_upstream : RerankRequest.t :=
  RerankRequest.Build "budget meeting" [doc_a_upstream; doc_b_upstream].
Definition three_request : RerankRequest.t :=
  RerankRequest.Build "budget meeting" [doc_a; doc_b; doc_c].
Definition empty_request : RerankRequest.t :=
  RerankRequest.Build "budget meeting" [].

(** A model that counts its calls and scores a pair by its text alone:
    2.0 for the budget notes, 1.0 for anything else. *)
Definition relevance (pair : string * string) : npfloat :=
  if String.eqb (snd pair) "Q3 budget review meeting notes" then f_2_0 else f_1_0.
Definition counting_predict (calls : nat) (pairs : list (string * string))
  : outcome (list npfloat) * nat :=
  (Returned (map relevance pairs), S calls).

(** A model that breaks its contract: one score, whatever the batch. *)
Definition one_score_predict (m : unit) (pairs : list (string * string))
  : outcome (list npfloat) * unit :=
  (Returned [f_1_0], m).

(** A model whose first score is NaN. *)
Definition nan_predict (m : unit) (pairs : list (string * string))
  : outcome (list npfloat) * unit :=
  (Returned [f_nan; f_1_0], m).

(** A model that fails. *)
Definition out_of_memory : exn := Exception "RuntimeError" "CUDA out of memory".
Definition failing_predict (m : unit) (pairs : list (string * string))
  : outcome (list npfloat) * unit :=
  (Raised out_of_memory, m).

Definition fresh_world {Model} (m : Model) : World Model := mkWorld m [].

(** ** The properties, as predicates on what the handler produced *)

(** [results[i].score >= results[i+1].score] for every valid [i]. *)
Definition sorted_descending (rs : list RerankResult.t) : Prop :=
  forall i r1 r2,
    nth_error rs i = Some r1 ->
    nth_error rs (S i) = Some r2 ->
    float_ge (RerankResult.score r1) (RerankResult.score r2) = true.

(** The pairs the handler builds before it sorts:
    [zip(payload.documents, scores)] turned into result records. *)
Definition paired (docs : list Document.t) (scores : list npfloat)
  : list RerankResult.t :=
  map result_of (combine docs scores).

(** The results whose score equals [s], in the order they stand in. *)
Definition with_score (s : pyfloat) (rs : list RerankResult.t)
  : list RerankResult.t :=
  filter (fun r => float_eq (RerankResult.score r) s) rs.

(** The batch the handler sends to the model. *)
Definition batch_of (payload : RerankRequest.t) : list (string * string) :=
  map (fun doc => (RerankRequest.query payload, Document.text doc))
      (RerankRequest.documents payload).

(** The model answers the same whatever state it is in. *)
Definition deterministic {Model : Type}
  (predict : Model -> list (string * string) -> outcome (list npfloat) * Model)
  : Prop :=
  forall m m' pairs, fst (predict m pairs) = fst (predict m' pairs).

(** [x] stands somewhere before [y] in [l]. *)
Definition precedes {A : Type} (x y : A) (l : list A) : Prop :=
  exists l1 l2 l3, l = l1 ++ x :: l2 ++ y :: l3.

(** The ids of the results are the ids of the documents, as sets. *)
Definition same_ids (rs : list RerankResult.t) (docs : list Document.t) : Prop :=
  forall i, In i (map RerankResult.id rs) <-> In i (map Document.id docs).


(** Without documents the handler answers with no results and leaves
    the model alone. *)
Definition skips_scoring_when_empty {Model : Type}
  (predict : Model -> list (string * string) -> outcome (list npfloat) * Model)
  (query : string) (w : World Model) : Prop :=
  let run := rerank predict (RerankRequest.Build query []) w in
  fst run = Returned (RerankResponse.Build []) /\
  predict_calls (snd run) = predict_calls w.

(** Adjacent items of a list are related by [R]. *)
Fixpoint adjacent {A : Type} (R : A -> A -> Prop) (l : list A) : Prop :=
  match l with
  | [] => True
  | a :: t =>
      match t with
      | [] => True
      | b :: _ => R a b /\ adjacent R t
      end
  end.

(** No NaN among the scores of [rs]. *)
Definition nan_free (rs : list RerankResult.t) : Prop :=
  Forall (fun r => isnan (RerankResult.score r) = false) rs.

(** No two positions of [rs] carry equal scores. *)
Definition distinct_scores (rs : list RerankResult.t) : Prop :=
  forall i j x y,
    i <> j ->
    nth_error rs i = Some x ->
    nth_error rs j = Some y ->
    float_eq (RerankResult.score x) (RerankResult.score y) = false.

(** The budget notes first, then the two documents that score 1.0. *)
Definition ranked_request : RerankRequest.t :=
  RerankRequest.Build "budget meeting" [doc_b; doc_a; doc_c].

(** The two documents of the example scenario, the other way round. *)
Definition swapped_request : RerankRequest.t :=
  RerankRequest.Build "budget meeting" [doc_b; doc_a].

(** Documents with equal scores come out in the order they came in. *)
Definition keeps_tie_order (docs : list Document.t) (scores : list npfloat)
  (rs : list RerankResult.t) : Prop :=
  forall i j di dj si sj,
    i < j ->
    nth_error docs i = Some di ->
    nth_error docs j = Some dj ->
    nth_error scores i = Some si ->
    nth_error scores j = Some sj ->
    float_eq si sj = true ->
    precedes (result_of (di, si)) (result_of (dj, sj)) rs.

(** Seven documents, and a model that scores the first and the third
    1.0 and the fourth NaN. *)
Definition f_0_0625 : pyfloat := S754_finite false 4503599627370496 (-56)%Z.
Definition f_0_125 : pyfloat := S754_finite false 4503599627370496 (-55)%Z.
Definition f_0_25 : pyfloat := S754_finite false 4503599627370496 (-54)%Z.

Definition seven_docs : list Document.t :=
  [Document.Build "d0" "agenda" None None;
   Document.Build "d1" "minutes" None None;
   Document.Build "d2" "action items" None None;
   Document.Build "d3" "attendees" None None;
   Document.Build "d4" "budget" None None;
   Document.Build "d5" "roadmap" None None;
   Document.Build "d6" "retrospective" None None].
Definition seven_request : RerankRequest.t :=
  RerankRequest.Build "budget meeting" seven_docs.
Definition seven_scores : list npfloat :=
  [f_1_0; f_0_0625; f_1_0; f_nan; f_2_0; f_0_25; f_0_125].
Definition nan_tie_predict (m : unit) (pairs : list (string * string))
  : outcome (list npfloat) * unit :=
  (Returned seven_scores, m).

(** * Theorems *)

(** ** Comparison of floats *)

Lemma SFcompare_antisym x y c :
  SFcompare x y = Some c -> SFcompare y x = Some (CompOpp c).
Proof.
  destruct x as [sx|sx| |sx mx ex], y as [sy|sy| |sy my ey]; simpl;
    try discriminate; intros H; injection H as <-;
    try (destruct sx; reflexivity); try (destruct sy; reflexivity);
    try (destruct sx, sy; reflexivity).
  destruct sx, sy; try reflexivity;
    rewrite (Z.compare_antisym ex ey);
    destruct (ex ?= ey)%Z; simpl; try reflexivity;
    do 2 f_equal; symmetry; exact (Pos.compare_cont_antisym mx my Eq).
Qed.

Lemma SFcompare_Eq_same x s :
  SFcompare x s = Some Eq -> forall y, SFcompare y x = SFcompare y s.
Proof.
  destruct x as [sx|sx| |sx mx ex], s as [ss|ss| |ss ms es]; simpl;
    try discriminate; try (destruct sx; discriminate);
    try (destruct ss; discriminate).
  - intros _ y. destruct y; reflexivity.
  - destruct sx, ss; try discriminate; reflexivity.
  - intros H y.
    assert (sx = ss /\ ex = es /\ mx = ms) as (-> & -> & ->).
    { destruct sx, ss; try discriminate;
        destruct (ex ?= es)%Z eqn:E; try discriminate;
        apply Z.compare_eq in E;
        (split; [reflexivity | split; [exact E | ]]);
        apply Pos.compare_eq; unfold Pos.compare;
        destruct (Pos.compare_cont Eq mx ms) eqn:C; simpl in H;
        try discriminate; reflexivity. }
    reflexivity.
Qed.

Lemma float_not_lt_ge x y :
  isnan x = false -> isnan y = false ->
  float_lt x y = false -> float_ge x y = true.
Proof.
  unfold float_lt, float_ge, SFltb, SFleb. intros Hx Hy.
  destruct (SFcompare x y) as [c|] eqn:E.
  - rewrite (SFcompare_antisym x y c E). destruct c; try discriminate; reflexivity.
  - destruct x, y; try discriminate.
Qed.


(** ** The order of floats *)

Lemma SFleb_trans x y z :
  SFleb x y = true -> SFleb y z = true -> SFleb x z = true.
Proof.
  unfold SFleb.
  destruct x as [sx|sx| |sx mx ex], y as [sy|sy| |sy my ey],
    z as [sz|sz| |sz mz ez]; simpl; try discriminate; try reflexivity;
    try (destruct sx; simpl; try discriminate; try reflexivity; fail);
    try (destruct sy; simpl; try discriminate; try reflexivity; fail);
    try (destruct sz; simpl; try discriminate; try reflexivity; fail);
    try (destruct sx, sy; simpl; try discriminate; try reflexivity; fail);
    try (destruct sx, sz; simpl; try discriminate; try reflexivity; fail);
    try (destruct sy, sz; simpl; try discriminate; try reflexivity; fail);
    try (destruct sx, sy, sz; simpl; try discriminate; try reflexivity; fail).
  all: change (Pos.compare_cont Eq) with Pos.compare.
  all: destruct sx, sy, sz; simpl; try discriminate; try reflexivity.
  all: destruct (Z.compare_spec ex ey), (Z.compare_spec ey ez),
         (Z.compare_spec ex ez); simpl; try discriminate; try reflexivity;
         try lia; subst.
  all: destruct (Pos.compare_spec mx my), (Pos.compare_spec my mz),
         (Pos.compare_spec mx mz); simpl; try discriminate; try reflexivity;
         try lia.
Qed.

Lemma float_ge_trans a b c :
  float_ge a b = true -> float_ge b c = true -> float_ge a c = true.
Proof. unfold float_ge. intros Hab Hbc. exact (SFleb_trans c b a Hbc Hab). Qed.

Lemma float_eq_sym a b : float_eq a b = true -> float_eq b a = true.
Proof.
  unfold float_eq, SFeqb.
  destruct (SFcompare a b) as [[ | | ]|] eqn:E; try discriminate.
  now rewrite (SFcompare_antisym a b Eq E).
Qed.

Lemma float_eq_trans a b c :
  float_eq a b = true -> float_eq b c = true -> float_eq a c = true.
Proof.
  unfold float_eq, SFeqb. intros Hab.
  destruct (SFcompare b c) as [[ | | ]|] eqn:E; try discriminate.
  now rewrite <- (SFcompare_Eq_same b c E a).
Qed.

Lemma float_eq_refl a : isnan a = false -> float_eq a a = true.
Proof.
  unfold float_eq, SFeqb. intros Ha.
  destruct (SFcompare a a) as [c|] eqn:E.
  - pose proof (SFcompare_antisym a a c E) as E'. rewrite E in E'.
    destruct c; try discriminate; reflexivity.
  - destruct a; discriminate.
Qed.

Lemma float_ge_antisym a b :
  float_ge a b = true -> float_ge b a = true -> float_eq a b = true.
Proof.
  unfold float_ge, float_eq, SFleb, SFeqb.
  destruct (SFcompare a b) as [c|] eqn:E; [|discriminate].
  rewrite (SFcompare_antisym a b c E). destruct c; simpl; try discriminate; reflexivity.
Qed.

Lemma float_eq_ge a b : float_eq a b = true -> float_ge a b = true.
Proof.
  intros H. apply float_eq_sym in H. revert H.
  unfold float_ge, float_eq, SFleb, SFeqb.
  destruct (SFcompare b a) as [[ | | ]|]; try discriminate; reflexivity.
Qed.

Lemma float_lt_asym a b : float_lt a b = true -> float_lt b a = false.
Proof.
  unfold float_lt, SFltb.
  destruct (SFcompare a b) as [c|] eqn:E; [|discriminate].
  rewrite (SFcompare_antisym a b c E). destruct c; try discriminate; reflexivity.
Qed.

Lemma float_ge_not_lt a b : float_ge a b = true -> float_lt a b = false.
Proof.
  unfold float_ge, float_lt, SFleb, SFltb.
  destruct (SFcompare b a) as [c|] eqn:E; [|discriminate].
  rewrite (SFcompare_antisym b a c E). destruct c; try discriminate; reflexivity.
Qed.

Lemma float_le_trans a b c :
  isnan a = false -> isnan b = false -> isnan c = false ->
  float_lt b a = false -> float_lt c b = false -> float_lt c a = false.
Proof.
  intros Ha Hb Hc Hba Hcb. apply float_ge_not_lt.
  apply (float_ge_trans c b a).
  - now apply float_not_lt_ge.
  - now apply float_not_lt_ge.
Qed.

Lemma float_eq_lt_above x y s :
  float_eq x s = true -> float_lt x y = true -> float_eq y s = false.
Proof.
  intros Hxs Hxy. destruct (float_eq y s) eqn:Hys; [|reflexivity].
  pose proof (float_eq_trans x s y Hxs (float_eq_sym y s Hys)) as Hxy'.
  apply float_eq_ge in Hxy'. apply float_ge_not_lt in Hxy'. congruence.
Qed.

(** ** The sort *)

Lemma StronglySorted_app {A} (R : A -> A -> Prop) l1 l2 :
  StronglySorted R l1 -> StronglySorted R l2 ->
  (forall x y, In x l1 -> In y l2 -> R x y) ->
  StronglySorted R (l1 ++ l2).
Proof.
  intros H1 H2 H12. induction l1 as [|a l1 IH]; [exact H2|].
  apply StronglySorted_inv in H1 as [H1 Ha]. simpl. constructor.
  - apply IH; [exact H1|]. intros x y Hx Hy. apply H12; [now right|exact Hy].
  - apply Forall_app. split; [exact Ha|].
    apply Forall_forall. intros y Hy. apply H12; [now left|exact Hy].
Qed.

Lemma StronglySorted_app_inv {A} (R : A -> A -> Prop) l1 l2 :
  StronglySorted R (l1 ++ l2) ->
  StronglySorted R l1 /\ StronglySorted R l2 /\
  (forall x y, In x l1 -> In y l2 -> R x y).
Proof.
  induction l1 as [|a l1 IH]; simpl; intros H.
  - repeat split; [constructor|exact H|intros x y []].
  - apply StronglySorted_inv in H as [H Ha].
    destruct (IH H) as (H1 & H2 & H12).
    apply Forall_app in Ha as [Ha1 Ha2]. repeat split.
    + now constructor.
    + exact H2.
    + intros x y [<-|Hx] Hy.
      * rewrite Forall_forall in Ha2. now apply Ha2.
      * now apply H12.
Qed.

Lemma StronglySorted_rev {A} (R : A -> A -> Prop) l :
  StronglySorted R l -> StronglySorted (fun x y => R y x) (rev l).
Proof.
  induction 1 as [|a l _ IH Ha]; simpl; [constructor|].
  apply StronglySorted_app; [exact IH|repeat constructor|].
  intros x y Hx [<-|[]]. apply in_rev in Hx.
  rewrite Forall_forall in Ha. now apply Ha.
Qed.

Lemma StronglySorted_impl {A} (R S : A -> A -> Prop) l :
  (forall x y, R x y -> S x y) -> StronglySorted R l -> StronglySorted S l.
Proof.
  intros HRS. induction 1 as [|a l _ IH Ha]; constructor; [exact IH|].
  eapply Forall_impl; [|exact Ha]. intros y. apply HRS.
Qed.

Lemma Forall_firstn {A} (P : A -> Prop) n l :
  Forall P l -> Forall P (firstn n l).
Proof.
  intros H. rewrite <- (firstn_skipn n l) in H. now apply Forall_app in H.
Qed.

Lemma Forall_skipn {A} (P : A -> Prop) n l :
  Forall P l -> Forall P (skipn n l).
Proof.
  intros H. rewrite <- (firstn_skipn n l) in H. now apply Forall_app in H.
Qed.

Lemma firstn_length_app {A} (l1 l2 : list A) :
  firstn (List.length l1) (l1 ++ l2) = l1.
Proof. induction l1 as [|a l1 IH]; simpl; [now destruct l2|now rewrite IH]. Qed.

Lemma skipn_length_app {A} (l1 l2 : list A) :
  skipn (List.length l1) (l1 ++ l2) = l2.
Proof. induction l1 as [|a l1 IH]; simpl; [reflexivity|exact IH]. Qed.

Lemma StronglySorted_nth_error {A} (R : A -> A -> Prop) l :
  StronglySorted R l ->
  forall i j x y,
    i < j -> nth_error l i = Some x -> nth_error l j = Some y -> R x y.
Proof.
  induction 1 as [|a l _ IH Ha]; intros i j x y Hij Hi Hj.
  - destruct i; discriminate.
  - destruct j as [|j]; [lia|]. simpl in Hj. destruct i as [|i]; simpl in Hi.
    + injection Hi as <-. rewrite Forall_forall in Ha.
      exact (Ha y (nth_error_In l j Hj)).
    + apply (IH i j x y); [lia|assumption..].
Qed.

Section ListSortFacts.
Context {A K : Type}.
Variable lt : K -> K -> bool.
Variable key : A -> K.

Lemma binarysort_perm sorted rest :
  Permutation (binarysort lt key sorted rest) (sorted ++ rest).
Proof.
  revert sorted. induction rest as [|pivot rest IH]; intros sorted; simpl.
  - now rewrite app_nil_r.
  - rewrite IH. rewrite <- app_assoc. simpl.
    set (n := bisect lt key _ _ _ _ _).
    apply (Permutation_trans
             (l' := (firstn n sorted ++ skipn n sorted) ++ pivot :: rest)).
    + rewrite <- !app_assoc. apply Permutation_app_head.
      apply Permutation_middle.
    + now rewrite firstn_skipn.
Qed.

Lemma sort_forward_perm l : Permutation (sort_forward lt key l) l.
Proof.
  destruct l as [|x [|y l]]; try apply Permutation_refl.
  unfold sort_forward. destruct (count_run lt key (x :: y :: l)) as [n d].
  rewrite binarysort_perm.
  apply (Permutation_trans
           (l' := firstn n (x :: y :: l) ++ skipn n (x :: y :: l))).
  - apply Permutation_app_tail.
    destruct d; [apply Permutation_sym, Permutation_rev|apply Permutation_refl].
  - rewrite firstn_skipn. apply Permutation_refl.
Qed.

Lemma list_sort_perm reverse l : Permutation (list_sort lt key reverse l) l.
Proof.
  destruct reverse; simpl.
  - rewrite <- Permutation_rev, sort_forward_perm. apply Permutation_sym, Permutation_rev.
  - apply sort_forward_perm.
Qed.

Section Ordered.
Variable ok : K -> Prop.
Hypothesis lt_asym : forall a b, lt a b = true -> lt b a = false.
Hypothesis le_trans :
  forall a b c, ok a -> ok b -> ok c ->
    lt b a = false -> lt c b = false -> lt c a = false.

Lemma lt_trans_ok a b c :
  ok a -> ok b -> ok c -> lt a b = true -> lt b c = true -> lt a c = true.
Proof.
  intros Ha Hb Hc Hab Hbc. destruct (lt a c) eqn:E; [reflexivity|].
  pose proof (le_trans c a b Hc Ha Hb E (lt_asym a b Hab)) as F. congruence.
Qed.

Lemma lt_le_trans_ok p x y :
  ok p -> ok x -> ok y -> lt p x = true -> lt y x = false -> lt p y = true.
Proof.
  intros Hp Hx Hy Hpx Hxy. destruct (lt p y) eqn:E; [reflexivity|].
  pose proof (le_trans x y p Hx Hy Hp Hxy E) as F. congruence.
Qed.

Lemma ascending_run_sorted prev t :
  Forall (fun x => ok (key x)) (prev :: t) ->
  StronglySorted (key_le lt key)
    (prev :: firstn (run_ascending lt key prev t) t).
Proof.
  revert prev. induction t as [|x t IH]; intros prev Hok.
  - repeat constructor.
  - inversion Hok as [|? ? Hprev Hok']; subst. simpl.
    destruct (lt (key x) (key prev)) eqn:E.
    + repeat constructor.
    + pose proof (IH x Hok') as Hs. simpl.
      constructor; [exact Hs|]. constructor; [exact E|].
      apply StronglySorted_inv in Hs as [_ Hx].
      inversion Hok' as [|? ? Hxok Hok'']; subst.
      pose proof (Forall_firstn _ (run_ascending lt key x t) t Hok'') as Hfo.
      rewrite Forall_forall in Hx, Hfo |- *.
      intros z Hz. unfold key_le in *.
      apply (le_trans (key prev) (key x) (key z)); auto.
Qed.

Lemma descending_run_sorted prev t :
  Forall (fun x => ok (key x)) (prev :: t) ->
  StronglySorted (fun a b => key_lt lt key b a)
    (prev :: firstn (run_descending lt key prev t) t).
Proof.
  revert prev. induction t as [|x t IH]; intros prev Hok.
  - repeat constructor.
  - inversion Hok as [|? ? Hprev Hok']; subst. simpl.
    destruct (lt (key x) (key prev)) eqn:E.
    + pose proof (IH x Hok') as Hs. simpl.
      constructor; [exact Hs|]. constructor; [exact E|].
      apply StronglySorted_inv in Hs as [_ Hx].
      inversion Hok' as [|? ? Hxok Hok'']; subst.
      pose proof (Forall_firstn _ (run_descending lt key x t) t Hok'') as Hfo.
      rewrite Forall_forall in Hx, Hfo |- *.
      intros z Hz. unfold key_lt in *.
      apply (lt_trans_ok (key z) (key x) (key prev)); auto.
    + repeat constructor.
Qed.

Lemma sorted_split pivot sorted :
  ok (key pivot) -> Forall (fun x => ok (key x)) sorted ->
  StronglySorted (key_le lt key) sorted ->
  exists L R,
    sorted = L ++ R /\
    Forall (fun x => lt (key pivot) (key x) = false) L /\
    Forall (fun x => lt (key pivot) (key x) = true) R.
Proof.
  intros Hp. induction sorted as [|x t IH]; intros Hok Hs.
  - exists [], []. repeat split; constructor.
  - inversion Hok as [|? ? Hx Hok']; subst.
    apply StronglySorted_inv in Hs as [Hs Hxt].
    destruct (lt (key pivot) (key x)) eqn:E.
    + exists [], (x :: t). split; [reflexivity|]. split; [constructor|].
      constructor; [exact E|].
      rewrite Forall_forall in Hxt, Hok' |- *. intros y Hy.
      apply (lt_le_trans_ok (key pivot) (key x) (key y)); auto.
      apply Hxt. exact Hy.
    + destruct (IH Hok' Hs) as (L & R & -> & HL & HR).
      exists (x :: L), R. split; [reflexivity|]. split; [|exact HR].
      constructor; assumption.
Qed.

Lemma bisect_spec pivot L R :
  Forall (fun x => lt (key pivot) (key x) = false) L ->
  Forall (fun x => lt (key pivot) (key x) = true) R ->
  forall fuel l r,
    l <= List.length L -> List.length L <= r -> r <= List.length (L ++ R) ->
    l < r -> r - l <= fuel ->
    bisect lt key fuel (L ++ R) pivot l r = List.length L.
Proof.
  intros HL HR. rewrite Forall_forall in HL, HR.
  induction fuel as [|fuel IH]; intros l r Hl Hr Hlen Hlr Hfuel; [lia|].
  simpl.
  assert (Nat.div2 (r - l) < r - l) as Hdiv by (apply Nat.lt_div2; lia).
  generalize dependent (Nat.div2 (r - l)). intros d Hdiv.
  set (p := l + d) in *.
  assert (l <= p < r) as Hp by (unfold p; lia).
  destruct (nth_error (L ++ R) p) as [x|] eqn:Hx.
  2: { apply nth_error_None in Hx. lia. }
  destruct (lt (key pivot) (key x)) eqn:E.
  - assert (List.length L <= p) as Hm.
    { destruct (Nat.lt_ge_cases p (List.length L)) as [Hlt|Hge]; [|exact Hge].
      rewrite nth_error_app1 in Hx by exact Hlt.
      rewrite (HL x (nth_error_In _ _ Hx)) in E. discriminate. }
    destruct (Nat.ltb l p) eqn:Hlp.
    + apply Nat.ltb_lt in Hlp. apply IH; unfold p in *; lia.
    + apply Nat.ltb_ge in Hlp. lia.
  - assert (p < List.length L) as Hm.
    { destruct (Nat.lt_ge_cases p (List.length L)) as [Hlt|Hge]; [exact Hlt|].
      rewrite nth_error_app2 in Hx by exact Hge.
      rewrite (HR x (nth_error_In _ _ Hx)) in E. discriminate. }
    destruct (Nat.ltb (S p) r) eqn:Hpr.
    + apply Nat.ltb_lt in Hpr. apply IH; unfold p in *; lia.
    + apply Nat.ltb_ge in Hpr. lia.
Qed.

Lemma bisect_found pivot L R :
  Forall (fun x => lt (key pivot) (key x) = false) L ->
  Forall (fun x => lt (key pivot) (key x) = true) R ->
  bisect lt key (List.length (L ++ R)) (L ++ R) pivot 0 (List.length (L ++ R))
  = List.length L.
Proof.
  intros HL HR. destruct (L ++ R) as [|a t] eqn:E.
  - destruct L; [reflexivity|discriminate].
  - rewrite <- E. apply bisect_spec; try assumption; try lia.
    + rewrite length_app. lia.
    + rewrite E. simpl. lia.
Qed.

Lemma insert_sorted pivot L R :
  StronglySorted (key_le lt key) (L ++ R) ->
  Forall (fun x => lt (key pivot) (key x) = false) L ->
  Forall (fun x => lt (key pivot) (key x) = true) R ->
  StronglySorted (key_le lt key) (L ++ pivot :: R).
Proof.
  intros Hs HL HR.
  apply StronglySorted_app_inv in Hs as (HsL & HsR & HLR).
  rewrite Forall_forall in HL, HR.
  apply StronglySorted_app; [exact HsL| |].
  - constructor; [exact HsR|]. apply Forall_forall. intros y Hy.
    unfold key_le. apply lt_asym, HR, Hy.
  - intros x y Hx [<-|Hy]; [exact (HL x Hx)|exact (HLR x y Hx Hy)].
Qed.

Lemma binarysort_sorted rest :
  forall sorted,
    Forall (fun x => ok (key x)) sorted -> Forall (fun x => ok (key x)) rest ->
    StronglySorted (key_le lt key) sorted ->
    StronglySorted (key_le lt key) (binarysort lt key sorted rest).
Proof.
  induction rest as [|pivot rest IH]; intros sorted Hok Hrest Hs; [exact Hs|].
  inversion Hrest as [|? ? Hp Hrest']; subst. simpl.
  destruct (sorted_split pivot sorted Hp Hok Hs) as (L & R & -> & HL & HR).
  rewrite (bisect_found pivot L R HL HR), firstn_length_app, skipn_length_app.
  apply IH; [|exact Hrest'|now apply insert_sorted].
  apply Forall_app in Hok as [HokL HokR]. apply Forall_app. split; [exact HokL|].
  now constructor.
Qed.

Section Stable.
Variable p : A -> bool.
Hypothesis p_below :
  forall x y, p x = true -> lt (key x) (key y) = true -> p y = false.

Lemma filter_none l :
  Forall (fun y => p y = false) l -> filter p l = [].
Proof.
  induction 1 as [|y l Hy _ IH]; [reflexivity|]. simpl. now rewrite Hy.
Qed.

Lemma binarysort_filter rest :
  forall sorted,
    Forall (fun x => ok (key x)) sorted -> Forall (fun x => ok (key x)) rest ->
    StronglySorted (key_le lt key) sorted ->
    filter p (binarysort lt key sorted rest) = filter p (sorted ++ rest).
Proof.
  induction rest as [|pivot rest IH]; intros sorted Hok Hrest Hs.
  - simpl. now rewrite app_nil_r.
  - inversion Hrest as [|? ? Hp Hrest']; subst. simpl.
    destruct (sorted_split pivot sorted Hp Hok Hs) as (L & R & -> & HL & HR).
    rewrite (bisect_found pivot L R HL HR), firstn_length_app, skipn_length_app.
    rewrite IH; [| |exact Hrest'|now apply insert_sorted].
    2: { apply Forall_app in Hok as [HokL HokR]. apply Forall_app.
         split; [exact HokL|now constructor]. }
    rewrite !filter_app. simpl.
    destruct (p pivot) eqn:Epivot.
    + assert (filter p R = []) as ->.
      { apply filter_none. eapply Forall_impl; [|exact HR].
        intros y Hy. exact (p_below pivot y Epivot Hy). }
      simpl. rewrite app_nil_r. now rewrite <- app_assoc.
    + now rewrite <- app_assoc.
Qed.

Lemma descending_filter_rev l :
  StronglySorted (fun a b => key_lt lt key b a) l ->
  filter p (rev l) = filter p l.
Proof.
  intros Hs. rewrite filter_rev.
  assert (rev (filter p l) = filter p l) as ->; [|reflexivity].
  induction Hs as [|a l _ IH Ha]; [reflexivity|]. simpl.
  destruct (p a) eqn:Ea; [|exact IH].
  assert (filter p l = []) as ->; [|reflexivity].
  apply filter_none. eapply Forall_impl; [|exact Ha].
  intros b Hb. unfold key_lt in Hb.
  destruct (p b) eqn:Eb; [|reflexivity].
  rewrite (p_below b a Eb Hb) in Ea. discriminate.
Qed.
End Stable.

Lemma count_run_cons x y t :
  count_run lt key (x :: y :: t)
  = if lt (key y) (key x)
    then (S (run_descending lt key x (y :: t)), true)
    else (S (run_ascending lt key x (y :: t)), false).
Proof. simpl. now destruct (lt (key y) (key x)). Qed.

Lemma sort_forward_sorted l :
  Forall (fun x => ok (key x)) l ->
  StronglySorted (key_le lt key) (sort_forward lt key l).
Proof.
  intros Hok. destruct l as [|x [|y t]]; [repeat constructor..|].
  unfold sort_forward. rewrite count_run_cons.
  destruct (lt (key y) (key x)) eqn:E.
  - apply binarysort_sorted.
    + apply Forall_rev. now apply Forall_firstn.
    + now apply Forall_skipn.
    + change (firstn (S (run_descending lt key x (y :: t))) (x :: y :: t))
        with (x :: firstn (run_descending lt key x (y :: t)) (y :: t)).
      pose proof (StronglySorted_rev _ _ (descending_run_sorted x (y :: t) Hok))
        as Hs.
      eapply StronglySorted_impl; [|exact Hs].
      intros a b Hab. unfold key_le, key_lt in *. now apply lt_asym.
  - apply binarysort_sorted.
    + now apply Forall_firstn.
    + now apply Forall_skipn.
    + exact (ascending_run_sorted x (y :: t) Hok).
Qed.

Lemma sort_forward_filter (p : A -> bool) l :
  (forall x y, p x = true -> lt (key x) (key y) = true -> p y = false) ->
  Forall (fun x => ok (key x)) l ->
  filter p (sort_forward lt key l) = filter p l.
Proof.
  intros Hp Hok. destruct l as [|x [|y t]]; [reflexivity..|].
  unfold sort_forward. rewrite count_run_cons.
  destruct (lt (key y) (key x)) eqn:E.
  - rewrite binarysort_filter; try assumption.
    + rewrite filter_app.
      change (firstn (S (run_descending lt key x (y :: t))) (x :: y :: t))
        with (x :: firstn (run_descending lt key x (y :: t)) (y :: t)).
      rewrite (descending_filter_rev p Hp _ (descending_run_sorted x (y :: t) Hok)).
      change (x :: firstn (run_descending lt key x (y :: t)) (y :: t))
        with (firstn (S (run_descending lt key x (y :: t))) (x :: y :: t)).
      rewrite <- (filter_app p
                    (firstn (S (run_descending lt key x (y :: t))) (x :: y :: t))).
      now rewrite firstn_skipn.
    + apply Forall_rev. now apply Forall_firstn.
    + now apply Forall_skipn.
    + change (firstn (S (run_descending lt key x (y :: t))) (x :: y :: t))
        with (x :: firstn (run_descending lt key x (y :: t)) (y :: t)).
      pose proof (StronglySorted_rev _ _ (descending_run_sorted x (y :: t) Hok))
        as Hs.
      eapply StronglySorted_impl; [|exact Hs].
      intros a b Hab. unfold key_le, key_lt in *. now apply lt_asym.
  - rewrite binarysort_filter; try assumption.
    + now rewrite firstn_skipn.
    + now apply Forall_firstn.
    + now apply Forall_skipn.
    + exact (ascending_run_sorted x (y :: t) Hok).
Qed.

Lemma list_sort_reverse_sorted l :
  Forall (fun x => ok (key x)) l ->
  StronglySorted (fun a b => key_le lt key b a) (list_sort lt key true l).
Proof.
  intros Hok. simpl. apply StronglySorted_rev, sort_forward_sorted.
  now apply Forall_rev.
Qed.

Lemma list_sort_reverse_filter (p : A -> bool) l :
  (forall x y, p x = true -> lt (key x) (key y) = true -> p y = false) ->
  Forall (fun x => ok (key x)) l ->
  filter p (list_sort lt key true l) = filter p l.
Proof.
  intros Hp Hok. simpl.
  rewrite filter_rev, sort_forward_filter; try assumption.
  - now rewrite filter_rev, rev_involutive.
  - now apply Forall_rev.
Qed.
End Ordered.
End ListSortFacts.

(** ** Lists *)

Lemma filter_app_cons_inv {A} (p : A -> bool) l a x b :
  filter p l = a ++ x :: b ->
  exists l1 l2, l = l1 ++ x :: l2 /\ filter p l1 = a /\ filter p l2 = b.
Proof.
  revert a. induction l as [|y l IH]; intros a H; simpl in H.
  - destruct a; discriminate.
  - destruct (p y) eqn:Hy.
    + destruct a as [|a0 a]; simpl in H; injection H as -> H.
      * exists [], l. auto.
      * destruct (IH a H) as (l1 & l2 & -> & <- & <-).
        exists (a0 :: l1), l2. simpl. rewrite Hy. auto.
    + destruct (IH a H) as (l1 & l2 & -> & <- & <-).
      exists (y :: l1), l2. simpl. rewrite Hy. auto.
Qed.

Lemma nth_error_precedes {A} (l : list A) i j x y :
  i < j -> nth_error l i = Some x -> nth_error l j = Some y ->
  precedes x y l.
Proof.
  intros Hij Hi Hj.
  destruct (nth_error_split l i Hi) as (l1 & t & -> & Hlen).
  rewrite nth_error_app2 in Hj by lia.
  replace (j - List.length l1) with (S (j - S i)) in Hj by lia. simpl in Hj.
  destruct (nth_error_split t (j - S i) Hj) as (l2 & l3 & -> & _).
  now exists l1, l2, l3.
Qed.

Lemma precedes_nth_error {A} (x y : A) l :
  precedes x y l ->
  exists i j, i < j /\ nth_error l i = Some x /\ nth_error l j = Some y.
Proof.
  intros (l1 & l2 & l3 & ->).
  exists (List.length l1), (List.length l1 + S (List.length l2)).
  split; [lia|]. split.
  - rewrite nth_error_app2 by lia. now rewrite Nat.sub_diag.
  - rewrite nth_error_app2 by lia.
    replace (List.length l1 + S (List.length l2) - List.length l1)
      with (S (List.length l2)) by lia.
    simpl. rewrite nth_error_app2 by lia. now rewrite Nat.sub_diag.
Qed.

Lemma nth_error_paired docs scores i d s :
  nth_error docs i = Some d -> nth_error scores i = Some s ->
  nth_error (paired docs scores) i = Some (result_of (d, s)).
Proof.
  unfold paired. revert scores i.
  induction docs as [|d0 docs IH]; intros [|s0 scores] [|i] Hd Hs;
    try discriminate; simpl in *.
  - now injection Hd as ->; injection Hs as ->.
  - now apply IH.
Qed.

Lemma paired_length docs scores :
  List.length (paired docs scores)
  = Nat.min (List.length docs) (List.length scores).
Proof. unfold paired. now rewrite length_map, length_combine. Qed.

Lemma paired_ids docs scores :
  List.length scores = List.length docs ->
  map RerankResult.id (paired docs scores) = map Document.id docs.
Proof.
  unfold paired. revert scores.
  induction docs as [|d docs IH]; intros [|s scores] H; try discriminate.
  - reflexivity.
  - simpl. f_equal. apply IH. simpl in H. lia.
Qed.


(** ** Lists in order *)

Lemma adjacent_of_nth_error {A} (R : A -> A -> Prop) l :
  (forall i a b, nth_error l i = Some a -> nth_error l (S i) = Some b -> R a b) ->
  adjacent R l.
Proof.
  induction l as [|x l IH]; intros H; [exact I|].
  destruct l as [|y l]; [exact I|]. split.
  - exact (H 0 x y eq_refl eq_refl).
  - apply IH. intros i a b Ha Hb. exact (H (S i) a b Ha Hb).
Qed.

Lemma adjacent_tail {A} (R : A -> A -> Prop) x l :
  adjacent R (x :: l) -> adjacent R l.
Proof. destruct l; [intros; exact I | intros [_ H]; exact H]. Qed.

Lemma adjacent_head_all {A} (R : A -> A -> Prop) x l :
  (forall a b c, R a b -> R b c -> R a c) ->
  adjacent R (x :: l) -> Forall (R x) l.
Proof.
  intros Htrans. revert x. induction l as [|y l IH]; intros x H; constructor.
  - apply H.
  - destruct H as [Hxy H]. specialize (IH y H).
    eapply Forall_impl; [|exact IH]. intros z Hyz. exact (Htrans x y z Hxy Hyz).
Qed.

Lemma adjacent_nth_error_lt {A} (R : A -> A -> Prop) l :
  (forall a b c, R a b -> R b c -> R a c) ->
  adjacent R l ->
  forall i j a b,
    i < j -> nth_error l i = Some a -> nth_error l j = Some b -> R a b.
Proof.
  intros Htrans. induction l as [|x l IH]; intros Hadj i j a b Hij Ha Hb.
  - destruct i; discriminate.
  - destruct j as [|j]; [lia|]. simpl in Hb. destruct i as [|i].
    + simpl in Ha. injection Ha as <-.
      pose proof (adjacent_head_all R x l Htrans Hadj) as Hall.
      rewrite Forall_forall in Hall. apply Hall.
      exact (nth_error_In l j Hb).
    + simpl in Ha. apply (IH (adjacent_tail R x l Hadj) i j a b); [lia|assumption..].
Qed.

Lemma filter_perm {A} (p : A -> bool) l1 l2 :
  Permutation l1 l2 -> Permutation (filter p l1) (filter p l2).
Proof.
  induction 1 as [|x l1 l2 _ IH|x y l|l1 l2 l3 _ IH1 _ IH2]; simpl.
  - apply perm_nil.
  - destruct (p x); [apply perm_skip|]; exact IH.
  - destruct (p x), (p y); try apply Permutation_refl. apply perm_swap.
  - exact (perm_trans IH1 IH2).
Qed.

Lemma perm_all_same_eq {A} (l1 l2 : list A) :
  Permutation l1 l2 ->
  (forall x y, In x l1 -> In y l1 -> x = y) ->
  l1 = l2.
Proof.
  revert l2. induction l1 as [|x l1 IH]; intros l2 Hperm Hsame.
  - now apply Permutation_nil in Hperm.
  - destruct l2 as [|y l2].
    + apply Permutation_sym, Permutation_nil in Hperm. discriminate.
    + assert (y = x) as ->.
      { apply Hsame; [|left; reflexivity].
        eapply Permutation_in; [apply Permutation_sym, Hperm|left; reflexivity]. }
      f_equal. apply IH.
      * exact (Permutation_cons_inv Hperm).
      * intros a b Ha Hb. apply Hsame; right; assumption.
Qed.


(** ** What a run of the handler amounts to *)

Section HandlerFacts.
Context {Model : Type}.
Variable predict :
    Model -> list (string * string) -> outcome (list npfloat) * Model.

Lemma rerank_returned payload w scores m' :
    predict (model w) (batch_of payload) = (Returned scores, m') ->
    rerank predict payload w
    = (Returned (RerankResponse.Build
         (list_sort float_lt RerankResult.score true
            (paired (RerankRequest.documents payload) scores))),
       mkWorld m' (predict_calls w ++ [batch_of payload])).
Proof.
    intros H. unfold rerank, bind, model_predict, ret.
    fold (batch_of payload). now rewrite H.
Qed.

Lemma rerank_raised payload w e m' :
    predict (model w) (batch_of payload) = (Raised e, m') ->
    rerank predict payload w
    = (Raised e, mkWorld m' (predict_calls w ++ [batch_of payload])).
Proof.
    intros H. unfold rerank, bind, model_predict, ret.
    fold (batch_of payload). now rewrite H.
Qed.

Lemma rerank_calls payload w :
    predict_calls (snd (rerank predict payload w))
    = predict_calls w ++ [batch_of payload].
Proof.
    destruct (predict (model w) (batch_of payload)) as [[scores|e] m'] eqn:H.
    - now rewrite (rerank_returned payload w scores m' H).
    - now rewrite (rerank_raised payload w e m' H).
Qed.

Lemma rerank_fst payload w :
    fst (rerank predict payload w)
    = match fst (predict (model w) (batch_of payload)) with
      | Returned scores =>
          Returned (RerankResponse.Build
            (list_sort float_lt RerankResult.score true
               (paired (RerankRequest.documents payload) scores)))
      | Raised e => Raised e
      end.
Proof.
    destruct (predict (model w) (batch_of payload)) as [[scores|e] m'] eqn:H.
    - now rewrite (rerank_returned payload w scores m' H).
    - now rewrite (rerank_raised payload w e m' H).
Qed.

Lemma rerank_returned_inv payload w resp :
    fst (rerank predict payload w) = Returned resp ->
    exists scores m',
      predict (model w) (batch_of payload) = (Returned scores, m') /\
      RerankResponse.results resp
      = list_sort float_lt RerankResult.score true
          (paired (RerankRequest.documents payload) scores).
Proof.
    destruct (predict (model w) (batch_of payload)) as [[scores|e] m'] eqn:H.
    - rewrite (rerank_returned payload w scores m' H). simpl. intros [= <-].
      now exists scores, m'.
    - rewrite (rerank_raised payload w e m' H). discriminate.
Qed.
End HandlerFacts.

Lemma batch_of_texts payload :
  batch_of payload
  = map (pair (RerankRequest.query payload))
        (map Document.text (RerankRequest.documents payload)).
Proof. unfold batch_of. now rewrite map_map. Qed.

Lemma paired_of_ids docs scores :
  paired docs scores
  = map (fun p => RerankResult.Build (fst p) (float (snd p)))
        (combine (map Document.id docs) scores).
Proof.
  unfold paired. revert scores.
  induction docs as [|d docs IH]; intros [|s scores]; try reflexivity.
  simpl. now rewrite IH.
Qed.

Lemma float_eq_refl_r x y : float_eq x y = true -> float_eq y y = true.
Proof.
  unfold float_eq, SFeqb. intros H.
  destruct (SFcompare x y) as [[ | | ]|] eqn:E; try discriminate.
  rewrite <- (SFcompare_Eq_same x y E y).
  now rewrite (SFcompare_antisym x y Eq E).
Qed.


(** ** Results in order *)

Lemma sorted_descending_adjacent rs :
  sorted_descending rs ->
  adjacent (fun a b =>
              float_ge (RerankResult.score a) (RerankResult.score b) = true) rs.
Proof. intros H. apply adjacent_of_nth_error. exact H. Qed.

Lemma descending_trans (a b c : RerankResult.t) :
  float_ge (RerankResult.score a) (RerankResult.score b) = true ->
  float_ge (RerankResult.score b) (RerankResult.score c) = true ->
  float_ge (RerankResult.score a) (RerankResult.score c) = true.
Proof. apply float_ge_trans. Qed.

Lemma list_sort_nan_free l :
  nan_free l -> nan_free (list_sort float_lt RerankResult.score true l).
Proof.
  unfold nan_free. apply Permutation_Forall, Permutation_sym, list_sort_perm.
Qed.

Lemma list_sort_descending l :
  nan_free l ->
  sorted_descending (list_sort float_lt RerankResult.score true l).
Proof.
  intros Hnan.
  pose proof (list_sort_reverse_sorted float_lt RerankResult.score
                (fun k => isnan k = false) float_lt_asym float_le_trans
                l Hnan) as Hs.
  pose proof (list_sort_nan_free l Hnan) as Hn.
  unfold nan_free in Hn. rewrite Forall_forall in Hn.
  intros i r1 r2 H1 H2.
  pose proof (StronglySorted_nth_error _ _ Hs i (S i) r1 r2
                (Nat.lt_succ_diag_r i) H1 H2) as Hle.
  unfold key_le in Hle.
  apply float_not_lt_ge; [| |exact Hle].
  - exact (Hn r1 (nth_error_In _ _ H1)).
  - exact (Hn r2 (nth_error_In _ _ H2)).
Qed.

Lemma with_score_list_sort s l :
  nan_free l ->
  with_score s (list_sort float_lt RerankResult.score true l) = with_score s l.
Proof.
  intros Hnan. unfold with_score.
  apply (list_sort_reverse_filter float_lt RerankResult.score
           (fun k => isnan k = false) float_lt_asym float_le_trans);
    [|exact Hnan].
  intros x y Hx Hxy. exact (float_eq_lt_above _ _ _ Hx Hxy).
Qed.

(** Two lists without NaN, both in descending order, that hold the same
    results in the same order for every score, are the same list. *)
Lemma descending_stable_unique l1 l2 :
  nan_free l1 -> nan_free l2 ->
  sorted_descending l1 -> sorted_descending l2 ->
  (forall s, with_score s l1 = with_score s l2) ->
  l1 = l2.
Proof.
  intros N1 N2 S1 S2.
  apply sorted_descending_adjacent in S1, S2.
  revert l2 N1 N2 S1 S2.
  induction l1 as [|x t1 IH]; intros [|y t2] N1 N2 A1 A2 Hf.
  - reflexivity.
  - inversion N2 as [|? ? Hy _]; subst.
    specialize (Hf (RerankResult.score y)). unfold with_score in Hf.
    simpl in Hf. rewrite (float_eq_refl _ Hy) in Hf. discriminate.
  - inversion N1 as [|? ? Hx _]; subst.
    specialize (Hf (RerankResult.score x)). unfold with_score in Hf.
    simpl in Hf. rewrite (float_eq_refl _ Hx) in Hf. discriminate.
  - inversion N1 as [|? ? Hx N1']; inversion N2 as [|? ? Hy N2']; subst.
    assert (x = y) as ->.
    { destruct (float_eq (RerankResult.score y) (RerankResult.score x)) eqn:E.
      - specialize (Hf (RerankResult.score x)). unfold with_score in Hf.
        simpl in Hf. rewrite (float_eq_refl _ Hx), E in Hf. now injection Hf.
      - exfalso.
        assert (float_eq (RerankResult.score x) (RerankResult.score y) = false)
          as E'.
        { destruct (float_eq (RerankResult.score x) (RerankResult.score y)) eqn:F;
            [|reflexivity].
          apply float_eq_sym in F. congruence. }
        assert (In y t1) as Hy1.
        { pose proof (Hf (RerankResult.score y)) as H. unfold with_score in H.
          simpl in H. rewrite (float_eq_refl _ Hy), E' in H.
          assert (In y (filter
                    (fun r => float_eq (RerankResult.score r) (RerankResult.score y))
                    t1)) as Hin by (rewrite H; left; reflexivity).
          apply filter_In in Hin. apply Hin. }
        assert (In x t2) as Hx2.
        { pose proof (Hf (RerankResult.score x)) as H. unfold with_score in H.
          simpl in H. rewrite (float_eq_refl _ Hx), E in H.
          assert (In x (filter
                    (fun r => float_eq (RerankResult.score r) (RerankResult.score x))
                    t2)) as Hin by (rewrite <- H; left; reflexivity).
          apply filter_In in Hin. apply Hin. }
        pose proof (adjacent_head_all _ x t1 descending_trans A1) as H1.
        pose proof (adjacent_head_all _ y t2 descending_trans A2) as H2.
        rewrite Forall_forall in H1, H2.
        pose proof (float_ge_antisym _ _ (H2 x Hx2) (H1 y Hy1)) as F.
        congruence. }
    f_equal. apply IH; try assumption.
    + exact (adjacent_tail _ y t1 A1).
    + exact (adjacent_tail _ y t2 A2).
    + intros s. specialize (Hf s). unfold with_score in *. simpl in Hf.
      destruct (float_eq (RerankResult.score y) s); [now injection Hf|exact Hf].
Qed.

Lemma distinct_scores_same l x y :
  distinct_scores l -> In x l -> In y l ->
  float_eq (RerankResult.score x) (RerankResult.score y) = true -> x = y.
Proof.
  intros Hd Hx Hy E.
  apply In_nth_error in Hx as [i Hi]. apply In_nth_error in Hy as [j Hj].
  destruct (Nat.eq_dec i j) as [->|Hij].
  - congruence.
  - rewrite (Hd i j x y Hij Hi Hj) in E. discriminate.
Qed.

Lemma with_score_perm s l1 l2 :
  Permutation l1 l2 -> distinct_scores l1 ->
  with_score s l1 = with_score s l2.
Proof.
  intros Hperm Hd. unfold with_score.
  apply perm_all_same_eq; [now apply filter_perm|].
  intros x y Hx Hy. apply filter_In in Hx as [Hx Ex], Hy as [Hy Ey].
  apply (distinct_scores_same l1); try assumption.
  apply (float_eq_trans _ s); [exact Ex|now apply float_eq_sym].
Qed.

Lemma paired_ids_firstn docs scores :
  map RerankResult.id (paired docs scores)
  = map Document.id (firstn (List.length scores) docs).
Proof.
  unfold paired. revert scores.
  induction docs as [|d docs IH]; intros [|s scores]; try reflexivity.
  simpl. f_equal. apply IH.
Qed.

Lemma paired_scores_firstn docs scores :
  map RerankResult.score (paired docs scores)
  = firstn (List.length docs) scores.
Proof.
  unfold paired. revert scores.
  induction docs as [|d docs IH]; intros [|s scores]; try reflexivity.
  simpl. unfold float. f_equal. apply IH.
Qed.

Lemma nth_error_paired_inv docs scores i r :
  nth_error (paired docs scores) i = Some r ->
  exists d s,
    nth_error docs i = Some d /\ nth_error scores i = Some s /\
    r = result_of (d, s).
Proof.
  unfold paired. revert scores i.
  induction docs as [|d docs IH]; intros [|s scores] [|i] H;
    try discriminate; simpl in H.
  - injection H as <-. now exists d, s.
  - exact (IH scores i H).
Qed.

Lemma descending_head_max x t r :
  nan_free (x :: t) -> sorted_descending (x :: t) -> In r (x :: t) ->
  float_ge (RerankResult.score x) (RerankResult.score r) = true.
Proof.
  intros Hnan Hsorted [<-|Hr].
  - inversion Hnan; subst. now apply float_eq_ge, float_eq_refl.
  - apply sorted_descending_adjacent in Hsorted.
    pose proof (adjacent_head_all _ x t descending_trans Hsorted) as Hall.
    rewrite Forall_forall in Hall. exact (Hall r Hr).
Qed.

(** ** The handler's contract *)

Section Contract.
Context {Model : Type}.
Variable predict :
    Model -> list (string * string) -> outcome (list npfloat) * Model.


  (** C2, as the handler has it: for [documents = []] the model is
      called exactly once, with the empty batch; when that call
      returns, whatever it returns, the results are empty. *)
Theorem rerank_empty_documents query w :
    let run := rerank predict (RerankRequest.Build query []) w in
    predict_calls (snd run) = predict_calls w ++ [[]] /\
    (forall scores m',
        predict (model w) [] = (Returned scores, m') ->
        fst run = Returned (RerankResponse.Build [])).
Proof.
    split.
    - apply rerank_calls.
    - intros scores m' H.
      now rewrite (rerank_returned predict (RerankRequest.Build query []) w scores m' H).
Qed.

  (** C3, as the handler has it: whenever [rerank] returns and none of
      the returned scores is NaN, the results are in descending order of
      score, [results[i].score >= results[i+1].score] for every
      adjacent pair. *)
Theorem rerank_sorted_descending payload w resp :
    fst (rerank predict payload w) = Returned resp ->
    (forall r, In r (RerankResponse.results resp) -> isnan (RerankResult.score r) = false) ->
    sorted_descending (RerankResponse.results resp).
Proof.
    intros Hrun Hnan.
    destruct (rerank_returned_inv predict payload w resp Hrun)
      as (scores & m' & _ & Hres).
    rewrite Hres in *. apply list_sort_descending.
    unfold nan_free. apply Forall_forall. intros r Hr. apply Hnan.
    eapply Permutation_in; [apply Permutation_sym, list_sort_perm|exact Hr].
Qed.

  (** C4, as the handler has it: the descending sort keeps ties in
      order when no score is NaN. For a model answer without NaN the
      results that carry a given score stand in
      the order their documents have in the request; so if document i
      comes before document j and the two receive equal scores, the
      result of i comes before the result of j. *)
Theorem rerank_stable payload w scores m' :
    predict (model w) (batch_of payload) = (Returned scores, m') ->
    Forall (fun r => isnan (RerankResult.score r) = false)
           (paired (RerankRequest.documents payload) scores) ->
    exists resp,
      fst (rerank predict payload w) = Returned resp /\
      (forall s,
          with_score s (RerankResponse.results resp)
          = with_score s (paired (RerankRequest.documents payload) scores)) /\
      (forall i j di dj si sj,
          i < j ->
          nth_error (RerankRequest.documents payload) i = Some di ->
          nth_error (RerankRequest.documents payload) j = Some dj ->
          nth_error scores i = Some si ->
          nth_error scores j = Some sj ->
          float_eq si sj = true ->
          precedes (result_of (di, si)) (result_of (dj, sj)) (RerankResponse.results resp)).
Proof.
    intros H Hnan. rewrite (rerank_returned predict payload w scores m' H).
    eexists. split; [reflexivity|]. cbn [RerankResponse.results].
    assert (forall s,
        with_score s
          (list_sort float_lt RerankResult.score true
             (paired (RerankRequest.documents payload) scores))
        = with_score s (paired (RerankRequest.documents payload) scores))
      as Hstable by (intros s; now apply with_score_list_sort).
    split; [exact Hstable|].
    intros i j di dj si sj Hij Hdi Hdj Hsi Hsj Heq.
    pose proof (nth_error_paired _ _ i di si Hdi Hsi) as Hi.
    pose proof (nth_error_paired _ _ j dj sj Hdj Hsj) as Hj.
    destruct (nth_error_precedes _ i j _ _ Hij Hi Hj) as (l1 & l2 & l3 & Hsplit).
    specialize (Hstable sj).
    rewrite Hsplit in Hstable at 2. unfold with_score in Hstable.
    rewrite filter_app in Hstable. simpl in Hstable.
    unfold float in Hstable. rewrite Heq in Hstable.
    rewrite filter_app in Hstable. simpl in Hstable.
    rewrite (float_eq_refl_r si sj Heq) in Hstable.
    apply filter_app_cons_inv in Hstable as (m1 & t & Hres & _ & Ht).
    apply filter_app_cons_inv in Ht as (m2 & m3 & -> & _ & _).
    now exists m1, m2, m3.
Qed.

  (** C5: when the model returns one score per text, [rerank] returns
      as many results as the request has documents, and their ids are
      the documents' ids rearranged: none dropped, none duplicated. *)
Theorem rerank_preserves_length payload w scores m' :
    predict (model w) (batch_of payload) = (Returned scores, m') ->
    List.length scores = List.length (RerankRequest.documents payload) ->
    exists resp,
      fst (rerank predict payload w) = Returned resp /\
      List.length (RerankResponse.results resp)
      = List.length (RerankRequest.documents payload) /\
      Permutation (map RerankResult.id (RerankResponse.results resp))
                  (map Document.id (RerankRequest.documents payload)).
Proof.
    intros H Hlen. rewrite (rerank_returned predict payload w scores m' H).
    eexists. split; [reflexivity|]. simpl RerankResponse.results.
    assert (Permutation
              (map RerankResult.id
                 (list_sort float_lt RerankResult.score true
                    (paired (RerankRequest.documents payload) scores)))
              (map Document.id (RerankRequest.documents payload))) as Hperm.
    { rewrite <- (paired_ids _ scores Hlen).
      apply Permutation_map, list_sort_perm. }
    split; [|exact Hperm].
    apply Permutation_length in Hperm. now rewrite !length_map in Hperm.
Qed.

  (** C6, as the handler has it: for a request with unique ids for
      which the model returns one score per document, the ids of the
      results are the ids of the documents, each of them once. *)
Theorem rerank_same_ids payload w scores m' :
    NoDup (map Document.id (RerankRequest.documents payload)) ->
    predict (model w) (batch_of payload) = (Returned scores, m') ->
    List.length scores = List.length (RerankRequest.documents payload) ->
    exists resp,
      fst (rerank predict payload w) = Returned resp /\
      same_ids (RerankResponse.results resp) (RerankRequest.documents payload) /\
      NoDup (map RerankResult.id (RerankResponse.results resp)).
Proof.
    intros Hnodup H Hlen. rewrite (rerank_returned predict payload w scores m' H).
    eexists. split; [reflexivity|]. simpl RerankResponse.results.
    assert (Permutation
              (map Document.id (RerankRequest.documents payload))
              (map RerankResult.id
                 (list_sort float_lt RerankResult.score true
                    (paired (RerankRequest.documents payload) scores)))) as Hperm.
    { rewrite <- (paired_ids _ scores Hlen).
      apply Permutation_map, Permutation_sym, list_sort_perm. }
    split.
    - intros i. split; apply Permutation_in;
        [apply Permutation_sym|]; exact Hperm.
    - exact (Permutation_NoDup Hperm Hnodup).
Qed.

  (** C7: when the model's batch call raises, [rerank] raises that
      very exception (the scoring failure with its cause) and returns
      no results; the call was made once and not repeated, and nothing
      stands in for the missing scores. *)
Theorem rerank_propagates_scoring_failure payload w e m' :
    predict (model w) (batch_of payload) = (Raised e, m') ->
    fst (rerank predict payload w) = Raised e /\
    (forall resp, fst (rerank predict payload w) <> Returned resp) /\
    predict_calls (snd (rerank predict payload w))
    = predict_calls w ++ [batch_of payload] /\
    model (snd (rerank predict payload w)) = m'.
Proof.
    intros H. rewrite (rerank_raised predict payload w e m' H). simpl.
    repeat split. intros resp. discriminate.
Qed.

  (** C8: every run of [rerank] calls the model exactly once. The batch
      has one entry per document, in the order of the request: the
      query as it came, with the text of that document. When the call
      returns, the results are the ids paired with the scores by
      position, rearranged by the sort. *)
Theorem rerank_single_batched_call payload w :
    predict_calls (snd (rerank predict payload w))
    = predict_calls w ++ [batch_of payload] /\
    List.length (batch_of payload)
    = List.length (RerankRequest.documents payload) /\
    (forall i doc,
        nth_error (RerankRequest.documents payload) i = Some doc ->
        nth_error (batch_of payload) i
        = Some (RerankRequest.query payload, Document.text doc)) /\
    (forall scores m',
        predict (model w) (batch_of payload) = (Returned scores, m') ->
        exists resp,
          fst (rerank predict payload w) = Returned resp /\
          Permutation (RerankResponse.results resp)
                      (paired (RerankRequest.documents payload) scores) /\
          (forall i doc s,
              nth_error (RerankRequest.documents payload) i = Some doc ->
              nth_error scores i = Some s ->
              nth_error (paired (RerankRequest.documents payload) scores) i
              = Some (RerankResult.Build (Document.id doc) s))).
Proof.
    split; [apply rerank_calls|].
    split; [apply length_map|].
    split.
    - intros i doc Hi. unfold batch_of.
      now rewrite nth_error_map, Hi.
    - intros scores m' H.
      rewrite (rerank_returned predict payload w scores m' H).
      eexists. split; [reflexivity|]. split.
      + apply (list_sort_perm float_lt RerankResult.score true).
      + intros i doc s Hd Hs. exact (nth_error_paired _ _ i doc s Hd Hs).
Qed.

  (** C9: with a model that answers the same on the same batch whatever
      its state, running [rerank] a second time on the same request,
      in the world the first run left behind, gives the same response. *)
Theorem rerank_deterministic payload w :
    deterministic predict ->
    fst (rerank predict payload (snd (rerank predict payload w)))
    = fst (rerank predict payload w).
Proof.
    intros Hdet. rewrite !rerank_fst.
    now rewrite (Hdet (model (snd (rerank predict payload w))) (model w)).
Qed.

  (** C10: two requests with the same query and, document by document,
      the same ids and the same texts get the same run of [rerank]:
      the same call to the model and the same response, whatever their
      documents' [metadata] and [score] fields hold. *)
Theorem rerank_ignores_metadata_and_score payload1 payload2 w :
    RerankRequest.query payload1 = RerankRequest.query payload2 ->
    map Document.id (RerankRequest.documents payload1)
    = map Document.id (RerankRequest.documents payload2) ->
    map Document.text (RerankRequest.documents payload1)
    = map Document.text (RerankRequest.documents payload2) ->
    rerank predict payload1 w = rerank predict payload2 w.
Proof.
    intros Hq Hid Htext.
    assert (batch_of payload1 = batch_of payload2) as Hbatch.
    { now rewrite !batch_of_texts, Hq, Htext. }
    destruct (predict (model w) (batch_of payload1)) as [[scores|e] m'] eqn:H.
    - rewrite (rerank_returned predict payload1 w scores m' H).
      rewrite Hbatch in H.
      rewrite (rerank_returned predict payload2 w scores m' H).
      now rewrite Hbatch, !paired_of_ids, Hid.
    - rewrite (rerank_raised predict payload1 w e m' H).
      rewrite Hbatch in H.
      rewrite (rerank_raised predict payload2 w e m' H).
      now rewrite Hbatch.
Qed.
End Contract.

(** ** Runs on the sample data *)

(** The sample scores are binary64 numbers in canonical form. *)
Example sample_floats_binary64 :
  valid_binary 53 1024 f_1_0 = true /\ valid_binary 53 1024 f_2_0 = true /\
  valid_binary 53 1024 f_nan = true.
Proof. repeat split. Qed.

Example more_sample_floats_binary64 :
  valid_binary 53 1024 f_0_0625 = true /\
  valid_binary 53 1024 f_0_125 = true /\
  valid_binary 53 1024 f_0_25 = true.
Proof. repeat split. Qed.

(** The example scenario: the budget notes come first. *)
Example rerank_budget_request :
  rerank counting_predict budget_request (fresh_world 0)
  = (Returned (RerankResponse.Build
       [RerankResult.Build "b" f_2_0; RerankResult.Build "a" f_1_0]),
     mkWorld 1
       [[("budget meeting", "weather forecast for tomorrow");
         ("budget meeting", "Q3 budget review meeting notes")]]).
Proof. reflexivity. Qed.



(** C2 fails on the handler: with no documents the model is still
    called, with an empty batch. *)
Lemma rerank_empty_documents_calls_model :
  predict_calls (snd (rerank counting_predict empty_request (fresh_world 0)))
  = [[]] /\
  ~ skips_scoring_when_empty counting_predict "budget meeting" (fresh_world 0).
Proof.
  split; [reflexivity|]. intros [_ H]. discriminate H.
Qed.

Lemma rerank_empty_documents_witness :
  counting_predict (model (fresh_world 0)) [] = (Returned [], 1) /\
  predict_calls (snd (rerank counting_predict empty_request (fresh_world 0)))
  = predict_calls (fresh_world 0) ++ [[]] /\
  fst (rerank counting_predict empty_request (fresh_world 0))
  = Returned (RerankResponse.Build []).
Proof.
  destruct (rerank_empty_documents counting_predict "budget meeting"
              (fresh_world 0)) as [Hcalls Hres].
  split; [reflexivity|]. split; [exact Hcalls|].
  exact (Hres [] 1 eq_refl).
Defined.

(** C3 fails on the handler: a NaN score. No [<] involving NaN holds,
    so the sort leaves NaN where it is, and [nan >= 1.0] is false. *)
Lemma rerank_nan_not_sorted :
  fst (rerank nan_predict budget_request (fresh_world tt))
  = Returned (RerankResponse.Build
      [RerankResult.Build "a" f_nan; RerankResult.Build "b" f_1_0]) /\
  ~ sorted_descending
      [RerankResult.Build "a" f_nan; RerankResult.Build "b" f_1_0].
Proof.
  split; [reflexivity|]. intros H.
  specialize (H 0 _ _ eq_refl eq_refl). discriminate H.
Qed.

Lemma rerank_sorted_descending_witness :
  fst (rerank counting_predict budget_request (fresh_world 0))
  = Returned (RerankResponse.Build
      [RerankResult.Build "b" f_2_0; RerankResult.Build "a" f_1_0]) /\
  (forall r,
      In r [RerankResult.Build "b" f_2_0; RerankResult.Build "a" f_1_0] ->
      isnan (RerankResult.score r) = false) /\
  sorted_descending
    [RerankResult.Build "b" f_2_0; RerankResult.Build "a" f_1_0].
Proof.
  assert (forall r,
      In r [RerankResult.Build "b" f_2_0; RerankResult.Build "a" f_1_0] ->
      isnan (RerankResult.score r) = false) as Hnan
      by (intros r [<-|[<-|[]]]; reflexivity).
  split; [reflexivity|]. split; [exact Hnan|].
  exact (rerank_sorted_descending counting_predict budget_request (fresh_world 0)
           (RerankResponse.Build
              [RerankResult.Build "b" f_2_0; RerankResult.Build "a" f_1_0])
           eq_refl Hnan).
Defined.

(** Three documents, the first and the last with score 1.0: they keep
    their order behind the budget notes. *)
Lemma rerank_stable_witness :
  counting_predict (model (fresh_world 0)) (batch_of three_request)
  = (Returned [f_1_0; f_2_0; f_1_0], 1) /\
  Forall (fun r => isnan (RerankResult.score r) = false)
         (paired (RerankRequest.documents three_request) [f_1_0; f_2_0; f_1_0]) /\
  fst (rerank counting_predict three_request (fresh_world 0))
  = Returned (RerankResponse.Build
      [RerankResult.Build "b" f_2_0; RerankResult.Build "a" f_1_0;
       RerankResult.Build "c" f_1_0]) /\
  exists resp,
    fst (rerank counting_predict three_request (fresh_world 0)) = Returned resp /\
    (forall s,
        with_score s (RerankResponse.results resp)
        = with_score s
            (paired (RerankRequest.documents three_request) [f_1_0; f_2_0; f_1_0])) /\
    (forall i j di dj si sj,
        i < j ->
        nth_error (RerankRequest.documents three_request) i = Some di ->
        nth_error (RerankRequest.documents three_request) j = Some dj ->
        nth_error [f_1_0; f_2_0; f_1_0] i = Some si ->
        nth_error [f_1_0; f_2_0; f_1_0] j = Some sj ->
        float_eq si sj = true ->
        precedes (result_of (di, si)) (result_of (dj, sj))
                 (RerankResponse.results resp)).
Proof.
  assert (Forall (fun r => isnan (RerankResult.score r) = false)
            (paired (RerankRequest.documents three_request)
               [f_1_0; f_2_0; f_1_0])) as Hnan
      by (repeat constructor).
  split; [reflexivity|]. split; [exact Hnan|]. split; [reflexivity|].
  exact (rerank_stable counting_predict three_request (fresh_world 0)
           [f_1_0; f_2_0; f_1_0] 1 eq_refl Hnan).
Defined.

(** C4 fails on the handler: a NaN among the scores lets the sort move
    a document past another one of equal score. The documents d0 and d2
    both score 1.0 and d0 comes first in the request; in the response
    d2 comes before d0. *)
Lemma rerank_nan_breaks_tie_order :
  fst (rerank nan_tie_predict seven_request (fresh_world tt))
  = Returned (RerankResponse.Build
      [RerankResult.Build "d2" f_1_0; RerankResult.Build "d3" f_nan;
       RerankResult.Build "d4" f_2_0; RerankResult.Build "d0" f_1_0;
       RerankResult.Build "d5" f_0_25; RerankResult.Build "d6" f_0_125;
       RerankResult.Build "d1" f_0_0625]) /\
  ~ keeps_tie_order seven_docs seven_scores
      [RerankResult.Build "d2" f_1_0; RerankResult.Build "d3" f_nan;
       RerankResult.Build "d4" f_2_0; RerankResult.Build "d0" f_1_0;
       RerankResult.Build "d5" f_0_25; RerankResult.Build "d6" f_0_125;
       RerankResult.Build "d1" f_0_0625].
Proof.
  split; [reflexivity|]. intros H.
  specialize (H 0 2 _ _ _ _ (Nat.lt_0_succ 1)
                eq_refl eq_refl eq_refl eq_refl eq_refl).
  apply precedes_nth_error in H as (i & j & Hij & _ & Hj).
  destruct j as [|[|[|[|[|[|[|j]]]]]]]; simpl in Hj; try discriminate Hj.
  - lia.
  - destruct j; discriminate Hj.
Qed.

Lemma rerank_preserves_length_witness :
  counting_predict (model (fresh_world 0)) (batch_of budget_request)
  = (Returned [f_1_0; f_2_0], 1) /\
  List.length [f_1_0; f_2_0]
  = List.length (RerankRequest.documents budget_request) /\
  exists resp,
    fst (rerank counting_predict budget_request (fresh_world 0)) = Returned resp /\
    List.length (RerankResponse.results resp)
    = List.length (RerankRequest.documents budget_request) /\
    Permutation (map RerankResult.id (RerankResponse.results resp))
                (map Document.id (RerankRequest.documents budget_request)).
Proof.
  split; [reflexivity|]. split; [reflexivity|].
  exact (rerank_preserves_length counting_predict budget_request (fresh_world 0)
           [f_1_0; f_2_0] 1 eq_refl eq_refl).
Defined.

(** C6 fails on the handler: unique ids, [rerank] returns, and the id
    "b" of the request is in no result. *)
Lemma rerank_short_scores_lose_ids :
  NoDup (map Document.id (RerankRequest.documents budget_request)) /\
  fst (rerank one_score_predict budget_request (fresh_world tt))
  = Returned (RerankResponse.Build [RerankResult.Build "a" f_1_0]) /\
  ~ same_ids [RerankResult.Build "a" f_1_0]
             (RerankRequest.documents budget_request).
Proof.
  split.
  - simpl. repeat constructor; simpl; intuition discriminate.
  - split; [reflexivity|]. intros H.
    destruct (proj2 (H "b")) as [E|[]].
    + simpl. auto.
    + discriminate E.
Qed.

Lemma rerank_same_ids_witness :
  NoDup (map Document.id (RerankRequest.documents budget_request)) /\
  counting_predict (model (fresh_world 0)) (batch_of budget_request)
  = (Returned [f_1_0; f_2_0], 1) /\
  List.length [f_1_0; f_2_0]
  = List.length (RerankRequest.documents budget_request) /\
  exists resp,
    fst (rerank counting_predict budget_request (fresh_world 0)) = Returned resp /\
    same_ids (RerankResponse.results resp)
             (RerankRequest.documents budget_request) /\
    NoDup (map RerankResult.id (RerankResponse.results resp)).
Proof.
  assert (NoDup (map Document.id (RerankRequest.documents budget_request)))
    as Hnodup
      by (simpl; repeat constructor; simpl; intuition discriminate).
  split; [exact Hnodup|]. split; [reflexivity|]. split; [reflexivity|].
  exact (rerank_same_ids counting_predict budget_request (fresh_world 0)
           [f_1_0; f_2_0] 1 Hnodup eq_refl eq_refl).
Defined.

Lemma rerank_propagates_scoring_failure_witness :
  failing_predict (model (fresh_world tt)) (batch_of budget_request)
  = (Raised out_of_memory, tt) /\
  fst (rerank failing_predict budget_request (fresh_world tt))
  = Raised out_of_memory /\
  (forall resp,
      fst (rerank failing_predict budget_request (fresh_world tt))
      <> Returned resp) /\
  predict_calls (snd (rerank failing_predict budget_request (fresh_world tt)))
  = predict_calls (fresh_world tt) ++ [batch_of budget_request] /\
  model (snd (rerank failing_predict budget_request (fresh_world tt))) = tt.
Proof.
  split; [reflexivity|].
  exact (rerank_propagates_scoring_failure failing_predict budget_request
           (fresh_world tt) out_of_memory tt eq_refl).
Defined.

Lemma rerank_single_batched_call_witness :
  counting_predict (model (fresh_world 0)) (batch_of budget_request)
  = (Returned [f_1_0; f_2_0], 1) /\
  predict_calls (snd (rerank counting_predict budget_request (fresh_world 0)))
  = predict_calls (fresh_world 0) ++ [batch_of budget_request] /\
  nth_error (batch_of budget_request) 1
  = Some ("budget meeting", "Q3 budget review meeting notes") /\
  exists resp,
    fst (rerank counting_predict budget_request (fresh_world 0)) = Returned resp /\
    Permutation (RerankResponse.results resp)
                (paired (RerankRequest.documents budget_request) [f_1_0; f_2_0]) /\
    (forall i doc s,
        nth_error (RerankRequest.documents budget_request) i = Some doc ->
        nth_error [f_1_0; f_2_0] i = Some s ->
        nth_error (paired (RerankRequest.documents budget_request) [f_1_0; f_2_0]) i
        = Some (RerankResult.Build (Document.id doc) s)).
Proof.
  destruct (rerank_single_batched_call counting_predict budget_request
              (fresh_world 0)) as (Hcalls & _ & Hbatch & Hres).
  split; [reflexivity|]. split; [exact Hcalls|].
  split; [exact (Hbatch 1 doc_b eq_refl)|].
  exact (Hres [f_1_0; f_2_0] 1 eq_refl).
Defined.

Lemma rerank_deterministic_witness :
  deterministic counting_predict /\
  fst (rerank counting_predict budget_request
         (snd (rerank counting_predict budget_request (fresh_world 0))))
  = fst (rerank counting_predict budget_request (fresh_world 0)).
Proof.
  assert (deterministic counting_predict) as Hdet
      by (intros m m' pairs; reflexivity).
  split; [exact Hdet|].
  exact (rerank_deterministic counting_predict budget_request (fresh_world 0) Hdet).
Defined.

Lemma rerank_ignores_metadata_and_score_witness :
  budget_request <> budget_request_upstream /\
  RerankRequest.query budget_request
  = RerankRequest.query budget_request_upstream /\
  map Document.id (RerankRequest.documents budget_request)
  = map Document.id (RerankRequest.documents budget_request_upstream) /\
  map Document.text (RerankRequest.documents budget_request)
  = map Document.text (RerankRequest.documents budget_request_upstream) /\
  rerank counting_predict budget_request (fresh_world 0)
  = rerank counting_predict budget_request_upstream (fresh_world 0).
Proof.
  split; [discriminate|].
  split; [reflexivity|]. split; [reflexivity|]. split; [reflexivity|].
  exact (rerank_ignores_metadata_and_score counting_predict
           budget_request budget_request_upstream (fresh_world 0)
           eq_refl eq_refl eq_refl).
Defined.

(** * Further properties of the handler *)

(** ** Further properties of [rerank] *)

Section Further.
Context {Model : Type}.
Variable predict :
    Model -> list (string * string) -> outcome (list npfloat) * Model.

(** X1: without NaN among the returned scores the results are in
    descending order throughout, not only pair by pair: a result never
    has a smaller score than any result behind it. *)
Theorem rerank_descending_throughout payload w resp :
  fst (rerank predict payload w) = Returned resp ->
  nan_free (RerankResponse.results resp) ->
  forall i j ri rj,
    i <= j ->
    nth_error (RerankResponse.results resp) i = Some ri ->
    nth_error (RerankResponse.results resp) j = Some rj ->
    float_ge (RerankResult.score ri) (RerankResult.score rj) = true.
Proof.
  intros Hrun Hnan i j ri rj Hij Hi Hj.
  destruct (rerank_returned_inv predict payload w resp Hrun)
    as (scores & m' & _ & Hres).
  assert (sorted_descending (RerankResponse.results resp)) as Hsorted.
  { rewrite Hres. apply list_sort_descending.
    unfold nan_free in *. eapply Permutation_Forall; [|exact Hnan].
    rewrite Hres. apply list_sort_perm. }
  destruct (Nat.eq_dec i j) as [->|Hne].
  - assert (ri = rj) as -> by congruence.
    apply float_eq_ge, float_eq_refl.
    unfold nan_free in Hnan. rewrite Forall_forall in Hnan.
    exact (Hnan rj (nth_error_In _ _ Hj)).
  - apply sorted_descending_adjacent in Hsorted.
    apply (adjacent_nth_error_lt _ _ descending_trans Hsorted i j ri rj);
      [lia|assumption..].
Qed.

(** X2: for a model answer without NaN, the response is the only
    arrangement of the id/score pairs that is in descending order of
    score and keeps pairs of equal score in the order of the request. *)
Theorem rerank_unique_stable_descending payload w scores m' rs :
  predict (model w) (batch_of payload) = (Returned scores, m') ->
  nan_free (paired (RerankRequest.documents payload) scores) ->
  Permutation rs (paired (RerankRequest.documents payload) scores) ->
  sorted_descending rs ->
  (forall s,
      with_score s rs
      = with_score s (paired (RerankRequest.documents payload) scores)) ->
  fst (rerank predict payload w) = Returned (RerankResponse.Build rs).
Proof.
  intros H Hnan Hperm Hsorted Hstable.
  rewrite (rerank_returned predict payload w scores m' H). cbn [fst].
  do 2 f_equal. symmetry. apply descending_stable_unique.
  - unfold nan_free in *.
    eapply Permutation_Forall; [apply Permutation_sym, Hperm|exact Hnan].
  - now apply list_sort_nan_free.
  - exact Hsorted.
  - now apply list_sort_descending.
  - intros s. rewrite with_score_list_sort by exact Hnan. apply Hstable.
Qed.

(** X3: whatever number of scores the model returns, the ids in the
    results are the ids of the leading documents, as many as there are
    scores, and the scores in the results are the leading scores, as
    many as there are documents: what [zip] drops is the tail of the
    longer sequence. *)
Theorem rerank_keeps_leading_pairs payload w scores m' :
  predict (model w) (batch_of payload) = (Returned scores, m') ->
  exists resp,
    fst (rerank predict payload w) = Returned resp /\
    Permutation
      (map RerankResult.id (RerankResponse.results resp))
      (map Document.id
         (firstn (List.length scores) (RerankRequest.documents payload))) /\
    Permutation
      (map RerankResult.score (RerankResponse.results resp))
      (firstn (List.length (RerankRequest.documents payload)) scores).
Proof.
  intros H. rewrite (rerank_returned predict payload w scores m' H).
  eexists. split; [reflexivity|]. cbn [RerankResponse.results]. split.
  - rewrite <- paired_ids_firstn. apply Permutation_map, list_sort_perm.
  - rewrite <- paired_scores_firstn. apply Permutation_map, list_sort_perm.
Qed.

(** X4: when the scores the model returns, without NaN, already
    descend along the request, the response lists the documents in the
    order of the request. *)
Theorem rerank_keeps_ranked_order payload w scores m' :
  predict (model w) (batch_of payload) = (Returned scores, m') ->
  nan_free (paired (RerankRequest.documents payload) scores) ->
  sorted_descending (paired (RerankRequest.documents payload) scores) ->
  fst (rerank predict payload w)
  = Returned (RerankResponse.Build
      (paired (RerankRequest.documents payload) scores)).
Proof.
  intros H Hnan Hsorted.
  rewrite (rerank_returned predict payload w scores m' H). cbn [fst].
  do 2 f_equal. symmetry. apply descending_stable_unique.
  - exact Hnan.
  - now apply list_sort_nan_free.
  - exact Hsorted.
  - now apply list_sort_descending.
  - intros s. now rewrite with_score_list_sort by exact Hnan.
Qed.

(** X5: the order in which the documents arrive matters for ties
    only. Two runs whose id/score pairs are the same up to their order,
    with no NaN and no two equal scores among them, give the same
    response. *)
Theorem rerank_arrival_order_irrelevant
    payload1 payload2 w1 w2 scores1 scores2 m1 m2 :
  predict (model w1) (batch_of payload1) = (Returned scores1, m1) ->
  predict (model w2) (batch_of payload2) = (Returned scores2, m2) ->
  Permutation (paired (RerankRequest.documents payload1) scores1)
              (paired (RerankRequest.documents payload2) scores2) ->
  nan_free (paired (RerankRequest.documents payload1) scores1) ->
  distinct_scores (paired (RerankRequest.documents payload1) scores1) ->
  fst (rerank predict payload1 w1) = fst (rerank predict payload2 w2).
Proof.
  intros H1 H2 Hperm Hnan Hdistinct.
  rewrite (rerank_returned predict payload1 w1 scores1 m1 H1).
  rewrite (rerank_returned predict payload2 w2 scores2 m2 H2). cbn [fst].
  assert (nan_free (paired (RerankRequest.documents payload2) scores2)) as Hnan2.
  { unfold nan_free in *. eapply Permutation_Forall; [exact Hperm|exact Hnan]. }
  do 2 f_equal. apply descending_stable_unique.
  - now apply list_sort_nan_free.
  - now apply list_sort_nan_free.
  - now apply list_sort_descending.
  - now apply list_sort_descending.
  - intros s. rewrite (with_score_list_sort s _ Hnan).
    rewrite (with_score_list_sort s _ Hnan2). now apply with_score_perm.
Qed.

(** X6: best first. With at least one document, one score per
    document and no NaN among the scores, the first result is a
    document of the request with the score the model gave it, and no
    score the model returned is greater than it. *)
Theorem rerank_best_first payload w scores m' :
  predict (model w) (batch_of payload) = (Returned scores, m') ->
  RerankRequest.documents payload <> [] ->
  List.length scores = List.length (RerankRequest.documents payload) ->
  Forall (fun s => isnan s = false) scores ->
  exists top rest,
    fst (rerank predict payload w)
    = Returned (RerankResponse.Build (top :: rest)) /\
    (exists i doc,
        nth_error (RerankRequest.documents payload) i = Some doc /\
        nth_error scores i = Some (RerankResult.score top) /\
        RerankResult.id top = Document.id doc) /\
    (forall s, In s scores -> float_ge (RerankResult.score top) s = true).
Proof.
  intros H Hne Hlen Hnan.
  rewrite (rerank_returned predict payload w scores m' H). cbn [fst].
  set (docs := RerankRequest.documents payload) in *.
  set (rs := list_sort float_lt RerankResult.score true (paired docs scores)).
  assert (Permutation rs (paired docs scores)) as Hperm
      by apply list_sort_perm.
  assert (nan_free (paired docs scores)) as Hpn.
  { unfold nan_free. apply Forall_forall. intros r Hr.
    apply In_nth_error in Hr as [i Hi].
    apply nth_error_paired_inv in Hi as (d & s & _ & Hs & ->).
    rewrite Forall_forall in Hnan. exact (Hnan s (nth_error_In _ _ Hs)). }
  assert (nan_free rs) as Hrn by now apply list_sort_nan_free.
  assert (sorted_descending rs) as Hsorted by now apply list_sort_descending.
  destruct rs as [|top rest] eqn:Ers.
  { apply Permutation_length in Hperm. rewrite paired_length, Hlen in Hperm.
    destruct docs; [congruence|simpl in Hperm; lia]. }
  exists top, rest. split; [reflexivity|]. split.
  - assert (In top (paired docs scores)) as Hin
        by (eapply Permutation_in; [exact Hperm|left; reflexivity]).
    apply In_nth_error in Hin as [i Hi].
    apply nth_error_paired_inv in Hi as (d & s & Hd & Hs & ->).
    now exists i, d.
  - intros s Hs. apply In_nth_error in Hs as [j Hj].
    destruct (nth_error docs j) as [dj|] eqn:Hdj.
    + pose proof (nth_error_paired docs scores j dj s Hdj Hj) as Hp.
      apply nth_error_In in Hp.
      apply Permutation_sym in Hperm.
      pose proof (Permutation_in _ Hperm Hp) as Hr.
      exact (descending_head_max top rest _ Hrn Hsorted Hr).
    + apply nth_error_None in Hdj.
      assert (j < List.length scores) by (apply nth_error_Some; congruence).
      lia.
Qed.
End Further.

(** ** Runs on the sample data, continued *)

Lemma rerank_descending_throughout_witness :
  fst (rerank counting_predict three_request (fresh_world 0))
  = Returned (RerankResponse.Build
      [RerankResult.Build "b" f_2_0; RerankResult.Build "a" f_1_0;
       RerankResult.Build "c" f_1_0]) /\
  nan_free [RerankResult.Build "b" f_2_0; RerankResult.Build "a" f_1_0;
            RerankResult.Build "c" f_1_0] /\
  forall i j ri rj,
    i <= j ->
    nth_error [RerankResult.Build "b" f_2_0; RerankResult.Build "a" f_1_0;
               RerankResult.Build "c" f_1_0] i = Some ri ->
    nth_error [RerankResult.Build "b" f_2_0; RerankResult.Build "a" f_1_0;
               RerankResult.Build "c" f_1_0] j = Some rj ->
    float_ge (RerankResult.score ri) (RerankResult.score rj) = true.
Proof.
  assert (nan_free [RerankResult.Build "b" f_2_0; RerankResult.Build "a" f_1_0;
                    RerankResult.Build "c" f_1_0]) as Hnan
      by (repeat constructor).
  split; [reflexivity|]. split; [exact Hnan|].
  exact (rerank_descending_throughout counting_predict three_request
           (fresh_world 0)
           (RerankResponse.Build
              [RerankResult.Build "b" f_2_0; RerankResult.Build "a" f_1_0;
               RerankResult.Build "c" f_1_0])
           eq_refl Hnan).
Defined.

Lemma rerank_unique_stable_descending_witness :
  counting_predict (model (fresh_world 0)) (batch_of budget_request)
  = (Returned [f_1_0; f_2_0], 1) /\
  nan_free (paired (RerankRequest.documents budget_request) [f_1_0; f_2_0]) /\
  Permutation [RerankResult.Build "b" f_2_0; RerankResult.Build "a" f_1_0]
              (paired (RerankRequest.documents budget_request) [f_1_0; f_2_0]) /\
  sorted_descending [RerankResult.Build "b" f_2_0; RerankResult.Build "a" f_1_0] /\
  (forall s,
      with_score s [RerankResult.Build "b" f_2_0; RerankResult.Build "a" f_1_0]
      = with_score s
          (paired (RerankRequest.documents budget_request) [f_1_0; f_2_0])) /\
  fst (rerank counting_predict budget_request (fresh_world 0))
  = Returned (RerankResponse.Build
      [RerankResult.Build "b" f_2_0; RerankResult.Build "a" f_1_0]).
Proof.
  assert (nan_free (paired (RerankRequest.documents budget_request)
                      [f_1_0; f_2_0])) as Hnan
      by (repeat constructor).
  assert (Permutation
            [RerankResult.Build "b" f_2_0; RerankResult.Build "a" f_1_0]
            (paired (RerankRequest.documents budget_request) [f_1_0; f_2_0]))
    as Hperm by apply perm_swap.
  assert (sorted_descending
            [RerankResult.Build "b" f_2_0; RerankResult.Build "a" f_1_0])
    as Hsorted.
  { intros [|[|[|i]]] r1 r2 H1 H2; simpl in H1, H2; try discriminate.
    injection H1 as <-. injection H2 as <-. reflexivity. }
  assert (forall s,
      with_score s [RerankResult.Build "b" f_2_0; RerankResult.Build "a" f_1_0]
      = with_score s
          (paired (RerankRequest.documents budget_request) [f_1_0; f_2_0]))
    as Hstable.
  { intros s. unfold with_score, paired. simpl. unfold float.
    destruct (float_eq f_2_0 s) eqn:E2, (float_eq f_1_0 s) eqn:E1;
      try reflexivity.
    pose proof (float_eq_trans f_2_0 s f_1_0 E2 (float_eq_sym f_1_0 s E1)) as F.
    discriminate F. }
  split; [reflexivity|]. split; [exact Hnan|]. split; [exact Hperm|].
  split; [exact Hsorted|]. split; [exact Hstable|].
  exact (rerank_unique_stable_descending counting_predict budget_request
           (fresh_world 0) [f_1_0; f_2_0] 1
           [RerankResult.Build "b" f_2_0; RerankResult.Build "a" f_1_0]
           eq_refl Hnan Hperm Hsorted Hstable).
Defined.

(** Two documents and one score: the result is the first document;
    the second document is dropped. *)
Lemma rerank_keeps_leading_pairs_witness :
  one_score_predict (model (fresh_world tt)) (batch_of budget_request)
  = (Returned [f_1_0], tt) /\
  map Document.id
      (firstn (List.length [f_1_0]) (RerankRequest.documents budget_request))
  = ["a"] /\
  exists resp,
    fst (rerank one_score_predict budget_request (fresh_world tt))
    = Returned resp /\
    Permutation
      (map RerankResult.id (RerankResponse.results resp))
      (map Document.id
         (firstn (List.length [f_1_0])
                 (RerankRequest.documents budget_request))) /\
    Permutation
      (map RerankResult.score (RerankResponse.results resp))
      (firstn (List.length (RerankRequest.documents budget_request)) [f_1_0]).
Proof.
  split; [reflexivity|]. split; [reflexivity|].
  exact (rerank_keeps_leading_pairs one_score_predict budget_request
           (fresh_world tt) [f_1_0] tt eq_refl).
Defined.

Lemma rerank_keeps_ranked_order_witness :
  counting_predict (model (fresh_world 0)) (batch_of ranked_request)
  = (Returned [f_2_0; f_1_0; f_1_0], 1) /\
  nan_free (paired (RerankRequest.documents ranked_request)
                   [f_2_0; f_1_0; f_1_0]) /\
  sorted_descending (paired (RerankRequest.documents ranked_request)
                            [f_2_0; f_1_0; f_1_0]) /\
  fst (rerank counting_predict ranked_request (fresh_world 0))
  = Returned (RerankResponse.Build
      (paired (RerankRequest.documents ranked_request) [f_2_0; f_1_0; f_1_0])).
Proof.
  assert (nan_free (paired (RerankRequest.documents ranked_request)
                      [f_2_0; f_1_0; f_1_0])) as Hnan
      by (repeat constructor).
  assert (sorted_descending (paired (RerankRequest.documents ranked_request)
                               [f_2_0; f_1_0; f_1_0])) as Hsorted.
  { intros [|[|[|[|i]]]] r1 r2 H1 H2; simpl in H1, H2; try discriminate;
      injection H1 as <-; injection H2 as <-; reflexivity. }
  split; [reflexivity|]. split; [exact Hnan|]. split; [exact Hsorted|].
  exact (rerank_keeps_ranked_order counting_predict ranked_request
           (fresh_world 0) [f_2_0; f_1_0; f_1_0] 1 eq_refl Hnan Hsorted).
Defined.

Lemma rerank_arrival_order_irrelevant_witness :
  counting_predict (model (fresh_world 0)) (batch_of budget_request)
  = (Returned [f_1_0; f_2_0], 1) /\
  counting_predict (model (fresh_world 0)) (batch_of swapped_request)
  = (Returned [f_2_0; f_1_0], 1) /\
  Permutation (paired (RerankRequest.documents budget_request) [f_1_0; f_2_0])
              (paired (RerankRequest.documents swapped_request) [f_2_0; f_1_0]) /\
  nan_free (paired (RerankRequest.documents budget_request) [f_1_0; f_2_0]) /\
  distinct_scores
    (paired (RerankRequest.documents budget_request) [f_1_0; f_2_0]) /\
  fst (rerank counting_predict budget_request (fresh_world 0))
  = fst (rerank counting_predict swapped_request (fresh_world 0)).
Proof.
  assert (Permutation
            (paired (RerankRequest.documents budget_request) [f_1_0; f_2_0])
            (paired (RerankRequest.documents swapped_request) [f_2_0; f_1_0]))
    as Hperm by apply perm_swap.
  assert (nan_free (paired (RerankRequest.documents budget_request)
                      [f_1_0; f_2_0])) as Hnan
      by (repeat constructor).
  assert (distinct_scores
            (paired (RerankRequest.documents budget_request) [f_1_0; f_2_0]))
    as Hdistinct.
  { intros [|[|[|i]]] [|[|[|j]]] x y Hij Hi Hj; simpl in Hi, Hj;
      try discriminate; try (exfalso; apply Hij; reflexivity);
      injection Hi as <-; injection Hj as <-; reflexivity. }
  split; [reflexivity|]. split; [reflexivity|]. split; [exact Hperm|].
  split; [exact Hnan|]. split; [exact Hdistinct|].
  exact (rerank_arrival_order_irrelevant counting_predict
           budget_request swapped_request (fresh_world 0) (fresh_world 0)
           [f_1_0; f_2_0] [f_2_0; f_1_0] 1 1
           eq_refl eq_refl Hperm Hnan Hdistinct).
Defined.

Lemma rerank_best_first_witness :
  counting_predict (model (fresh_world 0)) (batch_of three_request)
  = (Returned [f_1_0; f_2_0; f_1_0], 1) /\
  RerankRequest.documents three_request <> [] /\
  List.length [f_1_0; f_2_0; f_1_0]
  = List.length (RerankRequest.documents three_request) /\
  Forall (fun s => isnan s = false) [f_1_0; f_2_0; f_1_0] /\
  exists top rest,
    fst (rerank counting_predict three_request (fresh_world 0))
    = Returned (RerankResponse.Build (top :: rest)) /\
    (exists i doc,
        nth_error (RerankRequest.documents three_request) i = Some doc /\
        nth_error [f_1_0; f_2_0; f_1_0] i = Some (RerankResult.score top) /\
        RerankResult.id top = Document.id doc) /\
    (forall s,
        In s [f_1_0; f_2_0; f_1_0] ->
        float_ge (RerankResult.score top) s = true).
Proof.
  assert (RerankRequest.documents three_request <> []) as Hne by discriminate.
  assert (Forall (fun s => isnan s = false) [f_1_0; f_2_0; f_1_0]) as Hnan
      by (repeat constructor).
  split; [reflexivity|]. split; [exact Hne|]. split; [reflexivity|].
  split; [exact Hnan|].
  exact (rerank_best_first counting_predict three_request (fresh_world 0)
           [f_1_0; f_2_0; f_1_0] 1 eq_refl Hne eq_refl Hnan).
Defined.

